(** * PINN_EC: a physics-informed regressor for energy consumption

    A shallow embedding of [pinn_ec(18_11).py].  The script is one
    straight-line pipeline: it selects nine feature columns and one target
    column, min-max scales them, splits the rows into a training and a
    validation part, and trains a 9-12-12-1 sigmoid network against a
    data-fit term plus a physics residual.

    Conventions of the embedding.
    - A two-dimensional array or tensor of shape (B, C) is the list of its
      B rows, each a list of C numbers; a tensor of shape (B, 1) is the
      list of its B entries.
    - Python exceptions are values of [exn]; code that can raise returns a
      [result].
    - Numbers are the members of a [Scalar] structure.  The structural
      facts hold for every such structure; the algebraic ones are stated
      for exact rational arithmetic ([Q]), which leaves rounding out; the
      behaviour on NaN and infinities is studied on [xfloat], the
      rationals extended by the three IEEE special values.
    - What the script takes from its libraries and cannot be written
      down here (the pseudo-random generators, the sigmoid, reverse-mode
      differentiation with the Adam update) is a parameter of the
      definitions that use it. *)

From Stdlib Require Import String.
From Stdlib Require Import Bool Arith Lia ZArith QArith Qround Qminmax Qabs Lqa.
From Stdlib Require Import List Permutation.
Import ListNotations.

(** ** Exceptions *)

Inductive exn : Set :=
| KeyError
| IndexError
| ValueError
| RuntimeError
| ZeroDivisionError.

Inductive result (A : Type) : Type :=
| Ok (a : A)
| Raise (e : exn).

Arguments Ok {A} a.
Arguments Raise {A} e.

Definition bind {A B : Type} (m : result A) (k : A -> result B) : result B :=
  match m with
  | Ok a => k a
  | Raise e => Raise e
  end.

Notation "x <- m ;; k" := (bind m (fun x => k))
  (at level 61, m at next level, right associativity).

Definition succeeds {A : Type} (m : result A) : Prop :=
  exists a, m = Ok a.

Definition fails {A : Type} (m : result A) : Prop :=
  exists e, m = Raise e.

(** [mapM f l] runs [f] on the members of [l] from left to right and stops
    at the first exception. *)
Fixpoint mapM {A B : Type} (f : A -> result B) (l : list A) : result (list B) :=
  match l with
  | [] => Ok []
  | a :: l' => b <- f a ;; bs <- mapM f l' ;; Ok (b :: bs)
  end.

(** ** Numbers *)

Class Scalar (F : Type) : Type := {
  of_Q : Q -> F;
  fadd : F -> F -> F;
  fsub : F -> F -> F;
  fmul : F -> F -> F;
  fdiv : F -> F -> F
}.

#[export] Instance Q_scalar : Scalar Q := {
  of_Q := fun q => q;
  fadd := Qplus;
  fsub := Qminus;
  fmul := Qmult;
  fdiv := Qdiv
}.

(** ** Tensors *)

Section Tensors.

Context {F : Type} {SF : Scalar F}.

Definition zero : F := of_Q 0.

Definition of_nat (n : nat) : F := of_Q (inject_Z (Z.of_nat n)).

Definition zip_with {A B C : Type} (f : A -> B -> C) (a : list A) (b : list B)
  : list C :=
  map (fun p => f (fst p) (snd p)) (combine a b).

(** Element-wise binary operation on two tensors of shape (B, 1) and
    (B', 1): the shapes must agree unless one of them is (1, 1), which is
    then broadcast. *)
Definition elementwise (op : F -> F -> F) (a b : list F) : result (list F) :=
  if (length a =? length b)%nat then Ok (zip_with op a b)
  else match a, b with
       | [x], _ => Ok (map (op x) b)
       | _, [y] => Ok (map (fun x => op x y) a)
       | _, _ => Raise RuntimeError
       end.

(** [s * t], [t - s] with [s] a Python float or a zero-dimensional tensor. *)
Definition scale (s : F) (t : list F) : list F := map (fmul s) t.

Definition sub_scalar (t : list F) (s : F) : list F := map (fun x => fsub x s) t.

(** [t ** 2] *)
Definition square (x : F) : F := fmul x x.

Definition tsum (t : list F) : F := fold_left fadd t zero.

(** [torch.mean]: the sum of the entries over their number. *)
Definition mean (t : list F) : F := fdiv (tsum t) (of_nat (length t)).

Definition column (j : nat) (X : list (list F)) : list F :=
  map (fun row => nth j row zero) X.

Definition has_columns (c : nat) (X : list (list F)) : bool :=
  forallb (fun row => (length row =? c)%nat) X.

(** ** The physics residual (lines 80-87)

    [torch.split(inputs, 1, dim=1)] yields the columns of [inputs] from
    left to right; unpacking them into nine names raises [ValueError]
    unless there are exactly nine. *)
Definition physics_loss (inputs : list (list F)) (outputs : list F)
  (alpha beta gamma T_ref : F) : result F :=
  if negb (has_columns 9 inputs) then Raise ValueError else
  let Q_in := column 0 inputs in
  let Q_out := column 1 inputs in
  let ammonia := column 2 inputs in
  let BOD := column 3 inputs in
  let COD := column 4 inputs in
  let total_nitrogen := column 5 inputs in
  let T_avg := column 6 inputs in
  let RH := column 7 inputs in
  let rainfall := column 8 inputs in
  s <- elementwise fadd COD BOD ;;
  delta_DO <- elementwise fsub s ammonia ;;
  let predicted_energy := outputs in
  t1 <- elementwise fmul (scale alpha Q_in) delta_DO ;;
  t12 <- elementwise fadd t1 (scale beta Q_out) ;;
  rhs <- elementwise fadd t12 (scale gamma (sub_scalar T_avg T_ref)) ;;
  residual <- elementwise fsub predicted_energy rhs ;;
  Ok (mean (map square residual)).

(** The value the residual is taken against, for one row of [inputs], with
    the columns numbered as [physics_loss] unpacks them. *)
Definition expected_energy (alpha beta gamma T_ref : F) (row : list F) : F :=
  let Q_in := nth 0 row zero in
  let Q_out := nth 1 row zero in
  let ammonia := nth 2 row zero in
  let BOD := nth 3 row zero in
  let COD := nth 4 row zero in
  let T_avg := nth 6 row zero in
  fadd (fadd (fmul (fmul alpha Q_in) (fsub (fadd COD BOD) ammonia))
             (fmul beta Q_out))
       (fmul gamma (fsub T_avg T_ref)).

End Tensors.

(** ** The network (lines 63-74) *)

Section Network.

Context {F : Type} {SF : Scalar F}.

(** [nn.Sigmoid].  The exponential is not a rational function, so the
    activation is a parameter. *)
Variable sigmoid : F -> F.

(** [nn.Linear(in_features, out_features)]: [weight] has [out_features]
    rows of [in_features] entries, [bias] has [out_features] entries. *)
Record Linear : Type := {
  in_features : nat;
  out_features : nat;
  weight : list (list F);
  bias : list F
}.

Definition dot (x w : list F) : F := tsum (zip_with fmul x w).

Definition linear_row (L : Linear) (x : list F) : list F :=
  zip_with (fun w b => fadd (dot x w) b) (weight L) (bias L).

(** [L(X)] is [X @ weight.T + bias]; the last dimension of [X] must be
    [in_features]. *)
Definition apply_linear (L : Linear) (X : list (list F))
  : result (list (list F)) :=
  if has_columns (in_features L) X then Ok (map (linear_row L) X)
  else Raise RuntimeError.

Record PINN : Type := {
  hidden1 : Linear;
  hidden2 : Linear;
  output_layer : Linear
}.

Definition activation (X : list (list F)) : list (list F) :=
  map (map sigmoid) X.

(** [PINN.forward].  The output layer has one unit, so the result has shape
    (B, 1) and is returned as the list of its entries. *)
Definition forward (m : PINN) (x : list (list F)) : result (list F) :=
  h1 <- apply_linear (hidden1 m) x ;;
  let x1 := activation h1 in
  h2 <- apply_linear (hidden2 m) x1 ;;
  let x2 := activation h2 in
  out <- apply_linear (output_layer m) x2 ;;
  Ok (column 0 out).

(** The shapes [PINN.__init__] gives the three layers. *)
Definition linear_shape (i o : nat) (L : Linear) : bool :=
  (in_features L =? i)%nat && (out_features L =? o)%nat
  && (length (weight L) =? o)%nat && (length (bias L) =? o)%nat
  && has_columns i (weight L).

Definition pinn_shape (m : PINN) : bool :=
  linear_shape 9 12 (hidden1 m) && linear_shape 12 12 (hidden2 m)
  && linear_shape 12 1 (output_layer m).

(** ** The combined loss (lines 89-93) *)
Definition combined_loss (model : PINN) (inputs : list (list F))
  (targets : list F) (alpha beta gamma T_ref : F) : result F :=
  outputs <- forward model inputs ;;
  d <- elementwise fsub targets outputs ;;
  let mse_loss := mean (map square d) in
  phys_loss <- physics_loss inputs outputs alpha beta gamma T_ref ;;
  Ok (fadd mse_loss phys_loss).

(** ** Hyperparameters (lines 100-105) *)
Record Config : Type := {
  alpha : F;
  beta : F;
  gamma : F;
  T_ref : F;
  learning_rate : F;
  epochs : nat;
  batch_size : nat
}.

Definition default_config : Config := {|
  alpha := of_Q 0.01;
  beta := of_Q 0.005;
  gamma := of_Q 0.002;
  T_ref := of_Q 15.0;
  learning_rate := of_Q 0.001;
  epochs := 1500;
  batch_size := 32
|}.

(** ** Data loaders (lines 111-117) *)

(** [a[i]] *)
Definition getitem {A : Type} (a : list A) (i : nat) : result A :=
  match nth_error a i with
  | Some x => Ok x
  | None => Raise IndexError
  end.

(** [BatchSampler.__iter__] with [drop_last=False]: indices are appended
    to the current batch, which is yielded when it is full; what is left
    at the end is yielded if it is not empty. *)
Fixpoint batch_sampler (bs : nat) (batch : list nat) (sampler : list nat)
  : list (list nat) :=
  match sampler with
  | [] => match batch with
          | [] => []
          | _ :: _ => [batch]
          end
  | idx :: rest =>
      let batch' := batch ++ [idx] in
      if (length batch' =? bs)%nat
      then batch' :: batch_sampler bs [] rest
      else batch_sampler bs batch' rest
  end.

Record DataLoader : Type := {
  dataset : list (list F * F);
  loader_batch_size : nat;
  shuffle : bool
}.

(** [DataLoader(dataset, batch_size=..., shuffle=...)]: the batch size must
    be positive, and a shuffling loader needs a dataset that is not
    empty. *)
Definition data_loader (ds : list (list F * F)) (bs : nat) (sh : bool)
  : result DataLoader :=
  if (bs =? 0)%nat then Raise ValueError
  else if sh && (length ds =? 0)%nat then Raise ValueError
  else Ok {| dataset := ds; loader_batch_size := bs; shuffle := sh |}.

(** [len(loader)] *)
Definition loader_len (dl : DataLoader) : nat :=
  (length (dataset dl) + loader_batch_size dl - 1) / loader_batch_size dl.

(** The default collate function stacks the inputs of a batch into a
    tensor of shape (B, 9) and its targets into one of shape (B, 1). *)
Definition fetch (dl : DataLoader) (idxs : list nat)
  : result (list (list F) * list F) :=
  items <- mapM (getitem (dataset dl)) idxs ;;
  Ok (map fst items, map snd items).

(** ** The training loop (lines 107-141) *)

(** The state of the optimizer ([optim.Adam]: step count and moment
    estimates) and of torch's global generator, which every pass of a
    loader draws from. *)
Variable OptState : Type.
Variable TorchRng : Type.

(** [optimizer.zero_grad(); loss.backward(); optimizer.step()] for the
    combined loss of one batch: the parameters and optimizer state after
    the update. *)
Variable backward_step :
  Config -> PINN -> OptState -> list (list F) -> list F -> PINN * OptState.

(** [torch.empty((), dtype=torch.int64).random_().item()]: the base seed
    that the iterator of a loader draws from the global generator when it
    is created, whatever the sampler. *)
Variable base_seed : TorchRng -> Z * TorchRng.

(** [torch.randperm(n)] as the random sampler calls it. *)
Variable randperm : TorchRng -> nat -> list nat * TorchRng.

Record TrainState : Type := {
  model : PINN;
  training : bool;
  optimizer : OptState;
  torch_rng : TorchRng;
  train_losses : list F;
  val_losses : list F
}.

(** The indices a loader yields in one pass, batch by batch, and the
    generator afterwards.  [iter(loader)] draws the base seed first (with
    [num_workers=0] its value is not used); the random sampler then draws
    its permutation, the sequential sampler draws nothing. *)
Definition loader_batches (dl : DataLoader) (g : TorchRng)
  : list (list nat) * TorchRng :=
  let g0 := snd (base_seed g) in
  if shuffle dl then
    let (perm, g') := randperm g0 (length (dataset dl)) in
    (batch_sampler (loader_batch_size dl) [] perm, g')
  else
    (batch_sampler (loader_batch_size dl) [] (seq 0 (length (dataset dl))), g0).

(** Lines 125-130: one optimization step per batch. *)
Fixpoint train_batches (cfg : Config) (dl : DataLoader)
  (batches : list (list nat)) (m : PINN) (o : OptState) (train_loss : F)
  : result (PINN * OptState * F) :=
  match batches with
  | [] => Ok (m, o, train_loss)
  | idxs :: rest =>
      b <- fetch dl idxs ;;
      let (batch_X, batch_y) := b in
      loss <- combined_loss m batch_X batch_y
                (alpha cfg) (beta cfg) (gamma cfg) (T_ref cfg) ;;
      let (m', o') := backward_step cfg m o batch_X batch_y in
      train_batches cfg dl rest m' o' (fadd train_loss loss)
  end.

(** Lines 138-140: the loss of each validation batch is added up. *)
Fixpoint eval_batches (cfg : Config) (dl : DataLoader)
  (batches : list (list nat)) (m : PINN) (val_loss : F) : result F :=
  match batches with
  | [] => Ok val_loss
  | idxs :: rest =>
      b <- fetch dl idxs ;;
      let (batch_X, batch_y) := b in
      loss <- combined_loss m batch_X batch_y
                (alpha cfg) (beta cfg) (gamma cfg) (T_ref cfg) ;;
      eval_batches cfg dl rest m (fadd val_loss loss)
  end.

(** The losses of the batches of one training pass, in the order of the
    steps: each is taken with the parameters the steps before it have
    left.  [train_batches] keeps only their running sum. *)
Fixpoint batch_losses (cfg : Config) (dl : DataLoader)
  (batches : list (list nat)) (m : PINN) (o : OptState) : result (list F) :=
  match batches with
  | [] => Ok []
  | idxs :: rest =>
      b <- fetch dl idxs ;;
      let (batch_X, batch_y) := b in
      loss <- combined_loss m batch_X batch_y
                (alpha cfg) (beta cfg) (gamma cfg) (T_ref cfg) ;;
      let (m', o') := backward_step cfg m o batch_X batch_y in
      ls <- batch_losses cfg dl rest m' o' ;;
      Ok (loss :: ls)
  end.

(** The loss of one batch under fixed parameters. *)
Definition batch_loss (cfg : Config) (dl : DataLoader) (m : PINN)
  (idxs : list nat) : result F :=
  b <- fetch dl idxs ;;
  let (batch_X, batch_y) := b in
  combined_loss m batch_X batch_y (alpha cfg) (beta cfg) (gamma cfg) (T_ref cfg).

(** A Python float divided by [len(loader)]. *)
Definition div_len (x : F) (n : nat) : result F :=
  if (n =? 0)%nat then Raise ZeroDivisionError else Ok (fdiv x (of_nat n)).

(** Lines 123-132. *)
Definition training_phase (cfg : Config) (train_loader : DataLoader)
  (st : TrainState) : result TrainState :=
  let (batches, g') := loader_batches train_loader (torch_rng st) in
  r <- train_batches cfg train_loader batches (model st) (optimizer st) zero ;;
  let '(m, o, train_loss) := r in
  avg <- div_len train_loss (loader_len train_loader) ;;
  Ok {| model := m;
        training := true;
        optimizer := o;
        torch_rng := g';
        train_losses := train_losses st ++ [avg];
        val_losses := val_losses st |}.

(** Lines 134-141. *)
Definition validation_phase (cfg : Config) (val_loader : DataLoader)
  (st : TrainState) : result TrainState :=
  let (batches, g') := loader_batches val_loader (torch_rng st) in
  val_loss <- eval_batches cfg val_loader batches (model st) zero ;;
  avg <- div_len val_loss (loader_len val_loader) ;;
  Ok {| model := model st;
        training := false;
        optimizer := optimizer st;
        torch_rng := g';
        train_losses := train_losses st;
        val_losses := val_losses st ++ [avg] |}.

Definition train_epoch (cfg : Config) (train_loader val_loader : DataLoader)
  (st : TrainState) : result TrainState :=
  st1 <- training_phase cfg train_loader st ;;
  validation_phase cfg val_loader st1.

(** [for epoch in range(epochs)] *)
Fixpoint train_loop (n : nat) (cfg : Config)
  (train_loader val_loader : DataLoader) (st : TrainState)
  : result TrainState :=
  match n with
  | O => Ok st
  | S k =>
      st' <- train_epoch cfg train_loader val_loader st ;;
      train_loop k cfg train_loader val_loader st'
  end.

(** Lines 107-141, from the freshly initialized model and optimizer. *)
Definition train (cfg : Config) (m0 : PINN) (o0 : OptState) (g0 : TorchRng)
  (X_train : list (list F)) (y_train : list F)
  (X_val : list (list F)) (y_val : list F) : result TrainState :=
  train_loader <- data_loader (combine X_train y_train) (batch_size cfg) true ;;
  val_loader <- data_loader (combine X_val y_val) (batch_size cfg) false ;;
  train_loop (epochs cfg) cfg train_loader val_loader
    {| model := m0;
       training := true;
       optimizer := o0;
       torch_rng := g0;
       train_losses := [];
       val_losses := [] |}.

End Network.

Arguments model {F OptState TorchRng} t.
Arguments training {F OptState TorchRng} t.
Arguments optimizer {F OptState TorchRng} t.
Arguments torch_rng {F OptState TorchRng} t.
Arguments train_losses {F OptState TorchRng} t.
Arguments val_losses {F OptState TorchRng} t.
Arguments loader_batches {F TorchRng} base_seed randperm dl g.
Arguments train_batches {F SF} sigmoid {OptState} backward_step cfg dl batches m o train_loss.
Arguments batch_losses {F SF} sigmoid {OptState} backward_step cfg dl batches m o.
Arguments training_phase {F SF} sigmoid {OptState TorchRng} backward_step base_seed randperm cfg train_loader st.
Arguments validation_phase {F SF} sigmoid {OptState TorchRng} base_seed randperm cfg val_loader st.
Arguments train_epoch {F SF} sigmoid {OptState TorchRng} backward_step base_seed randperm cfg train_loader val_loader st.
Arguments train_loop {F SF} sigmoid {OptState TorchRng} backward_step base_seed randperm n cfg train_loader val_loader st.
Arguments train {F SF} sigmoid {OptState TorchRng} backward_step base_seed randperm cfg m0 o0 g0 X_train y_train X_val y_val.

(** ** Feature selection (lines 33-42) *)

Definition features : list string :=
  ["Average Outflow"; "Average Inflow"; "Ammonia"; "Biological Oxygen Demand";
   "Chemical Oxygen Demand"; "Total Nitrogen"; "Average Temperature";
   "Average humidity"; "Total rainfall"]%string.

Definition target : string := "Energy Consumption"%string.

(** A table as [pd.read_csv] returns it: named columns over rows of
    numbers. *)
Record DataFrame : Type := {
  columns : list string;
  values : list (list Q)
}.

Fixpoint index_of (name : string) (l : list string) : option nat :=
  match l with
  | [] => None
  | x :: l' => if String.eqb name x then Some O
               else option_map S (index_of name l')
  end.

Definition column_index (data : DataFrame) (name : string) : result nat :=
  match index_of name (columns data) with
  | Some j => Ok j
  | None => Raise KeyError
  end.

(** [data[names].values] *)
Definition select (data : DataFrame) (names : list string)
  : result (list (list Q)) :=
  idxs <- mapM (column_index data) names ;;
  Ok (map (fun row => map (fun j => nth j row 0) idxs) (values data)).

(** ** Min-max scaling (lines 44-48, 161-164)

    [sklearn.preprocessing.MinMaxScaler] with its default feature range
    (0, 1). *)

Definition float64_eps : Q := 1 # 4503599627370496.

Definition n_features (X : list (list Q)) : nat :=
  match X with
  | [] => O
  | row :: _ => length row
  end.

Definition column_min (c : list Q) : Q :=
  match c with
  | [] => 0
  | x :: xs => fold_left Qmin xs x
  end.

Definition column_max (c : list Q) : Q :=
  match c with
  | [] => 0
  | x :: xs => fold_left Qmax xs x
  end.

(** A range below ten machine epsilons counts as constant and is replaced
    by 1, so that the division that follows is defined. *)
Definition handle_zero (s : Q) : Q :=
  if negb (Qle_bool (10 * float64_eps) s) then 1 else s.

Definition handle_zeros_in_scale (scale : list Q) : list Q :=
  map handle_zero scale.

Record MinMaxScaler : Type := {
  n_features_in_ : nat;
  data_min_ : list Q;
  data_max_ : list Q;
  data_range_ : list Q;
  scale_ : list Q;
  min_ : list Q
}.

(** Input validation: at least one sample and one feature. *)
Definition check_array (X : list (list Q)) : result unit :=
  if (length X =? 0)%nat then Raise ValueError
  else if (n_features X =? 0)%nat then Raise ValueError
  else Ok tt.

Definition fit (X : list (list Q)) : result MinMaxScaler :=
  _ <- check_array X ;;
  let n := n_features X in
  let data_min := map (fun j => column_min (column j X)) (seq 0 n) in
  let data_max := map (fun j => column_max (column j X)) (seq 0 n) in
  let data_range := zip_with Qminus data_max data_min in
  let scale := map (fun r => (1 - 0) / r) (handle_zeros_in_scale data_range) in
  let min := zip_with (fun m s => 0 - m * s) data_min scale in
  Ok {| n_features_in_ := n;
        data_min_ := data_min;
        data_max_ := data_max;
        data_range_ := data_range;
        scale_ := scale;
        min_ := min |}.

Definition transform_row (s : MinMaxScaler) (row : list Q) : list Q :=
  zip_with Qplus (zip_with Qmult row (scale_ s)) (min_ s).

Definition inverse_transform_row (s : MinMaxScaler) (row : list Q) : list Q :=
  zip_with Qdiv (zip_with Qminus row (min_ s)) (scale_ s).

(** [X *= scale_; X += min_] *)
Definition transform (s : MinMaxScaler) (X : list (list Q))
  : result (list (list Q)) :=
  _ <- check_array X ;;
  if has_columns (n_features_in_ s) X then Ok (map (transform_row s) X)
  else Raise ValueError.

(** [X -= min_; X /= scale_], in place.  Unlike [transform], it does not
    compare the number of columns with the one seen by [fit]: numpy
    broadcasts, so the statistics of a scaler of one feature apply to
    every column, and any other mismatch makes the subtraction raise
    [ValueError]. *)
Definition inverse_transform (s : MinMaxScaler) (X : list (list Q))
  : result (list (list Q)) :=
  _ <- check_array X ;;
  if has_columns (n_features_in_ s) X then Ok (map (inverse_transform_row s) X)
  else if (n_features_in_ s =? 1)%nat then
    Ok (map (map (fun v => (v - nth 0 (min_ s) 0) / nth 0 (scale_ s) 0)) X)
  else Raise ValueError.

Definition fit_transform (X : list (list Q))
  : result (MinMaxScaler * list (list Q)) :=
  s <- fit X ;;
  X' <- transform s X ;;
  Ok (s, X').

(** ** The train/validation split (line 51)

    [sklearn.model_selection.train_test_split] with a fractional
    [test_size] and no [train_size]. *)

(** The four arrays the split returns. *)
Record SplitData (A B : Type) : Type := {
  X_train : list A;
  X_val : list A;
  y_train : list B;
  y_val : list B
}.

Arguments X_train {A B} s.
Arguments X_val {A B} s.
Arguments y_train {A B} s.
Arguments y_val {A B} s.

(** What lines 44-57 leave behind: the two fitted scalers and the four
    tensors. *)
Record Prepared (F : Type) : Type := {
  scaler_X : MinMaxScaler;
  scaler_y : MinMaxScaler;
  tensors : SplitData (list F) F
}.

Arguments scaler_X {F} p.
Arguments scaler_y {F} p.
Arguments tensors {F} p.

Section Split.

(** numpy's generator: [np.random.RandomState(seed)] and
    [rng.permutation(n)]. *)
Variable NpRng : Type.
Variable RandomState : nat -> NpRng.
Variable permutation : NpRng -> nat -> list nat * NpRng.

(** The sizes of the two parts: the test part takes the ceiling of its
    share, the training part what is left. *)
Definition validate_shuffle_split (n_samples : nat) (test_size : Q)
  : result (nat * nat) :=
  if Qle_bool test_size 0 || Qle_bool 1 test_size then Raise ValueError else
  let n_test := Z.to_nat (Qceiling (test_size * inject_Z (Z.of_nat n_samples))) in
  let n_train := (n_samples - n_test)%nat in
  if (n_train =? 0)%nat then Raise ValueError else Ok (n_train, n_test).

(** [check_random_state]: an integer seeds a generator of its own, [None]
    stands for numpy's global one. *)
Definition check_random_state (global : NpRng) (random_state : option nat)
  : NpRng :=
  match random_state with
  | Some seed => RandomState seed
  | None => global
  end.

(** The index sets [(train, test)] of the single shuffled split. *)
Definition shuffle_split (rng : NpRng) (n_samples n_train n_test : nat)
  : list nat * list nat * NpRng :=
  let (perm, rng') := permutation rng n_samples in
  let ind_test := firstn n_test perm in
  let ind_train := firstn n_train (skipn n_test perm) in
  (ind_train, ind_test, rng').

(** [a[indices]] *)
Definition safe_indexing {A : Type} (a : list A) (indices : list nat)
  : result (list A) :=
  mapM (getitem a) indices.

Definition split_indices (global : NpRng) (n_samples : nat) (test_size : Q)
  (random_state : option nat) : result (list nat * list nat) :=
  sizes <- validate_shuffle_split n_samples test_size ;;
  let (n_train, n_test) := sizes in
  let rng := check_random_state global random_state in
  let '(train, test, _) := shuffle_split rng n_samples n_train n_test in
  Ok (train, test).

(** The global generator after the call: it advances only when it was the
    one drawn from. *)
Definition global_after (global : NpRng) (n_samples : nat)
  (random_state : option nat) : NpRng :=
  match random_state with
  | Some _ => global
  | None => snd (permutation global n_samples)
  end.

Definition train_test_split {A B : Type} (global : NpRng)
  (X : list A) (y : list B) (test_size : Q) (random_state : option nat)
  : result (SplitData A B * NpRng) :=
  if negb (length X =? length y)%nat then Raise ValueError else
  let n_samples := length X in
  idx <- split_indices global n_samples test_size random_state ;;
  let (train, test) := idx in
  Xtr <- safe_indexing X train ;;
  Xte <- safe_indexing X test ;;
  ytr <- safe_indexing y train ;;
  yte <- safe_indexing y test ;;
  Ok ({| X_train := Xtr; X_val := Xte; y_train := ytr; y_val := yte |},
      global_after global n_samples random_state).

(** ** Lines 24-57: seeding, scaling and splitting *)

Definition to_tensor {F : Type} {SF : Scalar F} (X : list (list Q))
  : list (list F) :=
  map (map of_Q) X.

Definition prepare {F : Type} {SF : Scalar F} (ambient : NpRng)
  (data : DataFrame) : result (Prepared F * NpRng) :=
  (* np.random.seed(42) *)
  let global := RandomState 42 in
  X <- select data features ;;
  y <- select data [target] ;;
  sX <- fit_transform X ;;
  sy <- fit_transform y ;;
  let (scaler_X, X_scaled) := sX in
  let (scaler_y, y_scaled) := sy in
  sp <- train_test_split global X_scaled y_scaled 0.25 (Some 42%nat) ;;
  let (split, global') := sp in
  Ok ({| scaler_X := scaler_X;
         scaler_y := scaler_y;
         tensors := {| X_train := to_tensor (X_train split);
                       X_val := to_tensor (X_val split);
                       y_train := column 0 (to_tensor (y_train split));
                       y_val := column 0 (to_tensor (y_val split)) |} |},
      global').

End Split.

Arguments check_random_state {NpRng} RandomState global random_state.
Arguments shuffle_split {NpRng} permutation rng n_samples n_train n_test.
Arguments split_indices {NpRng} RandomState permutation global n_samples test_size random_state.
Arguments global_after {NpRng} permutation global n_samples random_state.
Arguments train_test_split {NpRng} RandomState permutation {A B} global X y test_size random_state.
Arguments prepare {NpRng} RandomState permutation {F SF} ambient data.

(** ** Numbers with the IEEE special values

    Exact rationals extended by the two infinities and NaN, with the
    arithmetic IEEE 754 gives the special values.  Rounding, overflow and
    the sign of zero are left out. *)

Inductive xfloat : Type :=
| Finite (q : Q)
| PosInf
| NegInf
| NaN.

Definition is_finite (x : xfloat) : bool :=
  match x with
  | Finite _ => true
  | _ => false
  end.

Definition xneg (x : xfloat) : xfloat :=
  match x with
  | Finite q => Finite (- q)
  | PosInf => NegInf
  | NegInf => PosInf
  | NaN => NaN
  end.

Definition xadd (x y : xfloat) : xfloat :=
  match x, y with
  | NaN, _ | _, NaN => NaN
  | Finite a, Finite b => Finite (a + b)
  | PosInf, NegInf | NegInf, PosInf => NaN
  | PosInf, _ | _, PosInf => PosInf
  | NegInf, _ | _, NegInf => NegInf
  end.

Definition xsub (x y : xfloat) : xfloat := xadd x (xneg y).

(** An infinity times, or over, a finite number of the given sign. *)
Definition inf_signed (inf : xfloat) (c : comparison) : xfloat :=
  match c with
  | Gt => inf
  | Lt => xneg inf
  | Eq => NaN
  end.

Definition xmul (x y : xfloat) : xfloat :=
  match x, y with
  | NaN, _ | _, NaN => NaN
  | Finite a, Finite b => Finite (a * b)
  | Finite a, inf => inf_signed inf (a ?= 0)
  | inf, Finite b => inf_signed inf (b ?= 0)
  | PosInf, PosInf | NegInf, NegInf => PosInf
  | PosInf, NegInf | NegInf, PosInf => NegInf
  end.

Definition xdiv (x y : xfloat) : xfloat :=
  match x, y with
  | NaN, _ | _, NaN => NaN
  | Finite a, Finite b =>
      if Qeq_bool b 0 then inf_signed PosInf (a ?= 0) else Finite (a / b)
  | Finite _, _ => Finite 0
  | inf, Finite b => if Qle_bool 0 b then inf else xneg inf
  | _, _ => NaN
  end.

#[export] Instance xfloat_scalar : Scalar xfloat := {
  of_Q := Finite;
  fadd := xadd;
  fsub := xsub;
  fmul := xmul;
  fdiv := xdiv
}.

(** ** The physics residual in the words of the specification

    The channels are found by the name of the feature they hold:
    [Q_in] is the inflow and [Q_out] the outflow. *)

Definition channel (name : string) (row : list Q) : Q :=
  match index_of name features with
  | Some j => nth j row 0
  | None => 0
  end.

Definition expected_spec (alpha beta gamma T_ref : Q) (row : list Q) : Q :=
  let Q_in := channel "Average Inflow" row in
  let Q_out := channel "Average Outflow" row in
  let ammonia := channel "Ammonia" row in
  let BOD := channel "Biological Oxygen Demand" row in
  let COD := channel "Chemical Oxygen Demand" row in
  let T_avg := channel "Average Temperature" row in
  alpha * Q_in * (COD + BOD - ammonia) + beta * Q_out + gamma * (T_avg - T_ref).

Definition physics_residual_spec (inputs : list (list Q)) (predicted : list Q)
  (alpha beta gamma T_ref : Q) : Q :=
  mean (zip_with (fun p row => square (p - expected_spec alpha beta gamma T_ref row))
          predicted inputs).

(** ** Stand-ins for the library parameters

    Concrete choices for what the definitions above take as parameters,
    to run them on small inputs. *)

Definition result_map {A B : Type} (f : A -> B) (m : result A) : result B :=
  match m with
  | Ok a => Ok (f a)
  | Raise e => Raise e
  end.

(** A generator whose state counts the draws and whose permutation
    reverses the indices. *)
Definition counting_RandomState (seed : nat) : nat := seed.

Definition reversing_permutation (g : nat) (n : nat) : list nat * nat :=
  (rev (seq 0 n), S g).

(** A base seed that is the count of the draws so far. *)
Definition counting_base_seed (g : nat) : Z * nat := (Z.of_nat g, S g).

(** [x / (1 + |x|)] brought into (0, 1): increasing, 1/2 at 0, in the
    place of the sigmoid; on the special values it is what the sigmoid
    is. *)
Definition rational_sigmoid (x : Q) : Q :=
  Qred (1 / 2 + x / (2 * (1 + Qabs x))).

Definition xfloat_sigmoid (x : xfloat) : xfloat :=
  match x with
  | Finite q => Finite (rational_sigmoid q)
  | PosInf => Finite 1
  | NegInf => Finite 0
  | NaN => NaN
  end.

Definition constant_linear {F : Type} (i o : nat) (w b : F) : @Linear F :=
  {| in_features := i;
     out_features := o;
     weight := repeat (repeat w i) o;
     bias := repeat b o |}.

Definition constant_pinn {F : Type} {SF : Scalar F} : @PINN F :=
  {| hidden1 := constant_linear 9 12 (of_Q 1) (of_Q 0);
     hidden2 := constant_linear 12 12 (of_Q 1) (of_Q 0);
     output_layer := constant_linear 12 1 (of_Q 1) (of_Q 0) |}.

(** An update that counts the steps and lowers the output bias by the
    learning rate. *)
Definition lower_bias_step {F : Type} {SF : Scalar F} (cfg : @Config F)
  (m : @PINN F) (o : nat) (batch_X : list (list F)) (batch_y : list F)
  : @PINN F * nat :=
  ({| hidden1 := hidden1 m;
      hidden2 := hidden2 m;
      output_layer :=
        {| in_features := in_features (output_layer m);
           out_features := out_features (output_layer m);
           weight := weight (output_layer m);
           bias := map (fun b => fsub b (learning_rate cfg))
                     (bias (output_layer m)) |} |},
   S o).

Definition small_config {F : Type} {SF : Scalar F} : @Config F :=
  {| alpha := of_Q 0.01;
     beta := of_Q 0.005;
     gamma := of_Q 0.002;
     T_ref := of_Q 15.0;
     learning_rate := of_Q 0.001;
     epochs := 2;
     batch_size := 2 |}.

Definition small_X : list (list Q) :=
  [[1; 0; 0; 0; 1; 0; 1; 0; 0];
   [0; 1; 0; 1; 0; 0; 0; 1; 0];
   [1; 1; 1; 0; 0; 1; 0; 0; 1]].

Definition small_y : list Q := [1; 0; 1].

(** An update that counts the steps and leaves the parameters alone. *)
Definition keep_parameters {F : Type} (cfg : @Config F) (m : @PINN F) (o : nat)
  (batch_X : list (list F)) (batch_y : list F) : @PINN F * nat :=
  (m, S o).

Definition small_loader {F : Type} {SF : Scalar F} (sh : bool) : @DataLoader F :=
  {| dataset := combine (to_tensor small_X) (map of_Q small_y);
     loader_batch_size := 2;
     shuffle := sh |}.

Definition small_state {F : Type} {SF : Scalar F} : @TrainState F nat nat :=
  {| model := constant_pinn;
     training := true;
     optimizer := O;
     torch_rng := O;
     train_losses := [];
     val_losses := [] |}.

(** ** Conditions on the data

    What the tensors of lines 53-57 satisfy by construction: rows of nine
    features. *)
Definition rows_ok {F : Type} (ds : list (list F * F)) : bool :=
  forallb (fun item => (length (fst item) =? 9)%nat) ds.

Definition loader_ok {F : Type} (dl : @DataLoader F) : bool :=
  negb (loader_batch_size dl =? 0)%nat
  && negb (length (dataset dl) =? 0)%nat
  && rows_ok (dataset dl).

(** Batches of indices into the dataset of a loader. *)
Definition in_range {F : Type} (dl : @DataLoader F) (batches : list (list nat))
  : Prop :=
  Forall (Forall (fun i => (i < length (dataset dl))%nat)) batches.

(** Targets with a missing value, as [pd.read_csv] reads an empty cell. *)
Definition nan_y : list xfloat := [Finite 1; NaN; Finite 1].

(** The sizes of the batches of a pass over [n] samples: full ones, then
    what is left over. *)
Definition batch_sizes (bs n : nat) : list nat :=
  repeat bs (n / bs) ++ (if (n mod bs =? 0)%nat then [] else [n mod bs]).

(** ** Evaluation (lines 155-170)

    [sklearn.metrics.mean_squared_error] and [sklearn.metrics.r2_score]
    with their default uniform average over the output columns. *)

(** An array of shape (N, 1) from its entries. *)
Definition as_column (y : list Q) : list (list Q) := map (fun v => [v]) y.

(** Two target arrays must have the same number of rows, at least one,
    and the same number of columns. *)
Definition check_reg_targets (y_true y_pred : list (list Q)) : result nat :=
  if negb (length y_true =? length y_pred)%nat then Raise ValueError else
  _ <- check_array y_true ;;
  _ <- check_array y_pred ;;
  if negb (n_features y_true =? n_features y_pred)%nat then Raise ValueError
  else Ok (n_features y_true).

(** [(y_true - y_pred) ** 2] *)
Definition squared_error (t p : Q) : Q := square (t - p).

Definition mean_squared_error (y_true y_pred : list (list Q)) : result Q :=
  n <- check_reg_targets y_true y_pred ;;
  let output_errors :=
    map (fun j => mean (zip_with squared_error (column j y_true) (column j y_pred)))
        (seq 0 n) in
  Ok (mean output_errors).

(** The score of one output column: 1 when the residual sum of squares
    is 0, else 0 when the total sum of squares is 0, else one minus their
    quotient. *)
Definition r2_output (t p : list Q) : Q :=
  let numerator := tsum (zip_with squared_error t p) in
  let average := mean t in
  let denominator := tsum (map (fun a => square (a - average)) t) in
  if Qeq_bool numerator 0 then 1
  else if Qeq_bool denominator 0 then 0
  else 1 - numerator / denominator.

(** With fewer than two samples the score is not defined and NaN is
    returned. *)
Definition r2_score (y_true y_pred : list (list Q)) : result xfloat :=
  n <- check_reg_targets y_true y_pred ;;
  if (length y_pred <? 2)%nat then Ok NaN
  else
    let output_scores :=
      map (fun j => r2_output (column j y_true) (column j y_pred)) (seq 0 n) in
    Ok (Finite (mean output_scores)).

Record Metrics : Type := {
  mse : Q;
  rmse : Q;
  r2 : xfloat
}.

(** Lines 156-168.  The square root is not a rational function and is a
    parameter. *)
Definition evaluate (sigmoid : Q -> Q) (sqrt : Q -> Q) (model : @PINN Q)
  (scaler_y : MinMaxScaler)
  (X_train : list (list Q)) (y_train : list Q)
  (X_val : list (list Q)) (y_val : list Q) : result Metrics :=
  y_pred_train <- forward sigmoid model X_train ;;
  y_pred_val <- forward sigmoid model X_val ;;
  y_train_actual <- inverse_transform scaler_y (as_column y_train) ;;
  y_val_actual <- inverse_transform scaler_y (as_column y_val) ;;
  y_pred_train_actual <- inverse_transform scaler_y (as_column y_pred_train) ;;
  y_pred_val_actual <- inverse_transform scaler_y (as_column y_pred_val) ;;
  mse <- mean_squared_error y_val_actual y_pred_val_actual ;;
  let rmse := sqrt mse in
  r2 <- r2_score y_val_actual y_pred_val_actual ;;
  Ok {| mse := mse; rmse := rmse; r2 := r2 |}.

(** ** Lines 24-141 as one run

    The initial parameters, the initial optimizer state and the state of
    torch's generator after [torch.manual_seed(42)] and the
    initialization are parameters. *)
Definition training_run {F : Type} {SF : Scalar F}
  {NpRng OptState TorchRng : Type}
  (RandomState : nat -> NpRng)
  (permutation : NpRng -> nat -> list nat * NpRng)
  (sigmoid : F -> F)
  (backward_step :
     @Config F -> @PINN F -> OptState -> list (list F) -> list F
     -> @PINN F * OptState)
  (base_seed : TorchRng -> Z * TorchRng)
  (randperm : TorchRng -> nat -> list nat * TorchRng)
  (cfg : @Config F) (m0 : @PINN F) (o0 : OptState) (g0 : TorchRng)
  (ambient : NpRng) (data : DataFrame)
  : result (Prepared F * @TrainState F OptState TorchRng) :=
  p <- prepare RandomState permutation ambient data ;;
  let prep := fst p in
  st <- train sigmoid backward_step base_seed randperm cfg m0 o0 g0
          (X_train (tensors prep)) (y_train (tensors prep))
          (X_val (tensors prep)) (y_val (tensors prep)) ;;
  Ok (prep, st).

(** The channels [physics_loss] never reads (total nitrogen, humidity,
    rainfall) set to a given value. *)
Definition overwrite_unused {F : Type} {SF : Scalar F} (v : F) (row : list F)
  : list F :=
  [nth 0 row zero; nth 1 row zero; nth 2 row zero; nth 3 row zero;
   nth 4 row zero; v; nth 6 row zero; v; v].

(** A small table with the ten columns of the script, in another order,
    and one column more. *)
Definition small_table : DataFrame :=
  {| columns :=
       ["Energy Consumption"; "Year"; "Average Outflow"; "Average Inflow";
        "Ammonia"; "Biological Oxygen Demand"; "Chemical Oxygen Demand";
        "Total Nitrogen"; "Average Temperature"; "Average humidity";
        "Total rainfall"]%string;
     values :=
       [[10; 2014; 1; 2; 3; 4; 5; 6; 7; 8; 9];
        [12; 2014; 2; 2; 4; 4; 6; 6; 8; 8; 9];
        [14; 2015; 3; 1; 3; 5; 5; 7; 7; 9; 9];
        [11; 2015; 4; 1; 5; 4; 7; 6; 9; 8; 8];
        [13; 2016; 5; 3; 3; 6; 5; 8; 7; 7; 9]] |}.

(** A table without the humidity column. *)
Definition table_without_humidity : DataFrame :=
  {| columns :=
       ["Average Outflow"; "Average Inflow"; "Ammonia";
        "Biological Oxygen Demand"; "Chemical Oxygen Demand";
        "Total Nitrogen"; "Average Temperature"; "Total rainfall";
        "Energy Consumption"]%string;
     values := [[1; 2; 3; 4; 5; 6; 7; 9; 10]; [2; 2; 4; 4; 6; 6; 8; 9; 12]] |}.

(** The entry of a list at an index, as a list of at most one entry. *)
Definition entry_at {A : Type} (l : list A) (i : nat) : list A :=
  match nth_error l i with
  | Some x => [x]
  | None => []
  end.

(** The inverse transform of one entry of an array of one column. *)
Definition inverse_entry (s : MinMaxScaler) (v : Q) : Q :=
  (v - nth 0 (min_ s) 0) / nth 0 (scale_ s) 0.

(** * Properties *)

(** ** The error monad *)

Lemma bind_ok {A B : Type} (m : result A) (k : A -> result B) (b : B) :
  bind m k = Ok b -> exists a, m = Ok a /\ k a = Ok b.
Proof.
  destruct m as [a | e]; simpl; intros H.
  - exists a; split; [reflexivity | exact H].
  - discriminate H.
Qed.

Lemma mapM_length {A B : Type} (f : A -> result B) (l : list A) (bs : list B) :
  mapM f l = Ok bs -> length bs = length l.
Proof.
  revert bs; induction l as [| a l IH]; simpl; intros bs H.
  - injection H as <-; reflexivity.
  - destruct (f a) as [b | e]; simpl in H; [| discriminate].
    destruct (mapM f l) as [bs' | e]; simpl in H; [| discriminate].
    injection H as <-; simpl; f_equal; apply IH; reflexivity.
Qed.

(** ** Lists as tensors *)

Section TensorFacts.

Context {F : Type} {SF : Scalar F}.

Lemma length_zip_with {A B C : Type} (f : A -> B -> C) (a : list A) (b : list B) :
  length (zip_with f a b) = Nat.min (length a) (length b).
Proof.
  unfold zip_with; rewrite length_map; apply length_combine.
Qed.

Lemma zip_with_map_map {A B C D : Type} (op : B -> C -> D)
  (f : A -> B) (g : A -> C) (l : list A) :
  zip_with op (map f l) (map g l) = map (fun a => op (f a) (g a)) l.
Proof.
  unfold zip_with; induction l as [| a l IH]; simpl; [reflexivity |].
  f_equal; exact IH.
Qed.

Lemma zip_with_map_r {A B C D : Type} (op : A -> C -> D) (g : B -> C)
  (a : list A) (l : list B) :
  zip_with op a (map g l) = zip_with (fun x y => op x (g y)) a l.
Proof.
  unfold zip_with; revert l; induction a as [| x a IH]; intros [| y l]; simpl;
    try reflexivity.
  f_equal; apply IH.
Qed.

Lemma map_zip_with {A B C D : Type} (h : C -> D) (op : A -> B -> C)
  (a : list A) (b : list B) :
  map h (zip_with op a b) = zip_with (fun x y => h (op x y)) a b.
Proof.
  unfold zip_with; rewrite map_map; reflexivity.
Qed.

Lemma length_column (j : nat) (X : list (list F)) :
  length (column j X) = length X.
Proof. apply length_map. Qed.

Lemma elementwise_same_length (op : F -> F -> F) (a b : list F) :
  length a = length b -> elementwise op a b = Ok (zip_with op a b).
Proof.
  intros H; unfold elementwise.
  rewrite H, Nat.eqb_refl; reflexivity.
Qed.

(** The physics residual, computed column by column, is the mean over the
    rows of the squared difference to [expected_energy]. *)
Lemma physics_loss_rowwise (inputs : list (list F)) (outputs : list F)
  (a b g T : F) :
  has_columns 9 inputs = true ->
  length outputs = length inputs ->
  physics_loss inputs outputs a b g T =
  Ok (mean (zip_with (fun p row => square (fsub p (expected_energy a b g T row)))
              outputs inputs)).
Proof.
  intros Hc Hlen.
  unfold physics_loss; rewrite Hc; simpl negb; cbv iota.
  unfold column, scale, sub_scalar.
  rewrite elementwise_same_length by (rewrite !length_map; reflexivity).
  simpl bind; rewrite zip_with_map_map.
  rewrite elementwise_same_length by (rewrite !length_map; reflexivity).
  simpl bind; rewrite zip_with_map_map, !map_map.
  rewrite elementwise_same_length by (rewrite !length_map; reflexivity).
  simpl bind; rewrite zip_with_map_map.
  rewrite elementwise_same_length by (rewrite !length_map; reflexivity).
  simpl bind; rewrite zip_with_map_map.
  rewrite elementwise_same_length by (rewrite !length_map; reflexivity).
  simpl bind; rewrite zip_with_map_map.
  rewrite elementwise_same_length by (rewrite length_map; exact Hlen).
  simpl bind; rewrite zip_with_map_r, map_zip_with.
  reflexivity.
Qed.

End TensorFacts.

(** ** The forward pass returns *)

Section NetworkFacts.

Context {F : Type} {SF : Scalar F}.
Variable sigmoid : F -> F.

Lemma has_columns_map (c : nat) (f : list F -> list F) (X : list (list F)) :
  (forall row, length (f row) = c) -> has_columns c (map f X) = true.
Proof.
  intros Hf; unfold has_columns; rewrite forallb_forall.
  intros r Hr; apply in_map_iff in Hr; destruct Hr as [row [<- _]].
  rewrite Hf; apply Nat.eqb_refl.
Qed.

Lemma linear_shape_lengths (i o : nat) (L : @Linear F) :
  linear_shape i o L = true ->
  in_features L = i /\ length (weight L) = o /\ length (bias L) = o.
Proof.
  unfold linear_shape; rewrite !andb_true_iff, !Nat.eqb_eq; tauto.
Qed.

Lemma apply_linear_ok (i o : nat) (L : @Linear F) (X : list (list F)) :
  linear_shape i o L = true ->
  has_columns i X = true ->
  apply_linear L X = Ok (map (linear_row L) X) /\
  has_columns o (map (linear_row L) X) = true.
Proof.
  intros HL HX; destruct (linear_shape_lengths _ _ _ HL) as [Hi [Hw Hb]].
  split.
  - unfold apply_linear; rewrite Hi, HX; reflexivity.
  - apply has_columns_map; intros row; unfold linear_row.
    rewrite length_zip_with, Hw, Hb; apply Nat.min_id.
Qed.

Lemma has_columns_activation (c : nat) (X : list (list F)) :
  has_columns c X = true -> has_columns c (activation sigmoid X) = true.
Proof.
  unfold has_columns, activation; rewrite !forallb_forall; intros H r Hr.
  apply in_map_iff in Hr; destruct Hr as [row [<- Hrow]].
  rewrite length_map; apply H; exact Hrow.
Qed.

(** On a batch of nine-column rows a network of the shapes of
    [PINN.__init__] returns one prediction per row. *)
Lemma forward_total (m : @PINN F) (X : list (list F)) :
  pinn_shape m = true ->
  has_columns 9 X = true ->
  exists outputs, forward sigmoid m X = Ok outputs /\ length outputs = length X.
Proof.
  unfold pinn_shape; rewrite !andb_true_iff; intros [[H1 H2] H3] HX.
  destruct (apply_linear_ok _ _ _ _ H1 HX) as [E1 C1].
  destruct (apply_linear_ok _ _ _ _ H2 (has_columns_activation _ _ C1)) as [E2 C2].
  destruct (apply_linear_ok _ _ _ _ H3 (has_columns_activation _ _ C2)) as [E3 _].
  unfold forward; rewrite E1; simpl bind; rewrite E2; simpl bind; rewrite E3.
  simpl bind; eexists; split; [reflexivity |].
  unfold activation; rewrite length_column, !length_map; reflexivity.
Qed.

(** The combined loss is the sum of the two terms, each a mean over the
    batch. *)
Lemma combined_loss_total (m : @PINN F) (inputs : list (list F))
  (targets : list F) (a b g T : F) :
  pinn_shape m = true ->
  has_columns 9 inputs = true ->
  length targets = length inputs ->
  exists outputs phys,
    forward sigmoid m inputs = Ok outputs /\
    length outputs = length inputs /\
    physics_loss inputs outputs a b g T = Ok phys /\
    combined_loss sigmoid m inputs targets a b g T =
    Ok (fadd (mean (zip_with (fun t p => square (fsub t p)) targets outputs))
             phys).
Proof.
  intros Hm HX Hlen.
  destruct (forward_total m inputs Hm HX) as [outputs [Ef Hout]].
  exists outputs; eexists; split; [exact Ef | split; [exact Hout | split]].
  - apply physics_loss_rowwise; assumption.
  - unfold combined_loss; rewrite Ef; simpl bind.
    rewrite elementwise_same_length by congruence; simpl bind.
    rewrite physics_loss_rowwise by assumption; simpl bind.
    rewrite map_zip_with; reflexivity.
Qed.

End NetworkFacts.

(** ** Sums and means of rationals *)

Section RationalFacts.

Open Scope Q_scope.

Lemma fold_Qplus_acc (l : list Q) (acc : Q) :
  fold_left Qplus l acc == acc + fold_left Qplus l 0.
Proof.
  revert acc; induction l as [| x l IH]; intros acc; simpl.
  - lra.
  - rewrite (IH (acc + x)), (IH (0 + x)); lra.
Qed.

Lemma tsum_cons (x : Q) (l : list Q) : tsum (x :: l) == x + tsum l.
Proof.
  unfold tsum, zero; simpl; rewrite fold_Qplus_acc; lra.
Qed.

Lemma tsum_nonneg (l : list Q) : Forall (fun x => 0 <= x) l -> 0 <= tsum l.
Proof.
  induction 1 as [| x l Hx _ IH].
  - unfold tsum, zero; simpl; lra.
  - rewrite tsum_cons; lra.
Qed.


Lemma of_nat_pos (n : nat) : (0 < n)%nat -> 0 < of_nat (F := Q) n.
Proof.
  intros H; unfold of_nat; simpl.
  change 0 with (inject_Z 0); rewrite <- Zlt_Qlt; lia.
Qed.

Lemma mean_nonneg (l : list Q) : Forall (fun x => 0 <= x) l -> 0 <= mean l.
Proof.
  intros H; unfold mean; destruct l as [| x l].
  - vm_compute; discriminate.
  - apply Qle_shift_div_l; [apply of_nat_pos; simpl; lia |].
    apply tsum_nonneg in H; simpl fdiv; lra.
Qed.


Lemma tsum_zero (l : list Q) : Forall (fun x => x == 0) l -> tsum l == 0.
Proof.
  induction 1 as [| x l Hx _ IH].
  - reflexivity.
  - rewrite tsum_cons, Hx, IH; lra.
Qed.

Lemma mean_zero (l : list Q) : Forall (fun x => x == 0) l -> mean l == 0.
Proof.
  intros H; unfold mean; simpl fdiv; rewrite (tsum_zero _ H).
  unfold Qdiv; lra.
Qed.

Lemma Forall_zip_with {A B : Type} (P : Q -> Prop) (f : A -> B -> Q)
  (a : list A) (b : list B) :
  (forall x y, P (f x y)) -> Forall P (zip_with f a b).
Proof.
  intros H; unfold zip_with; apply Forall_forall; intros q Hq.
  apply in_map_iff in Hq; destruct Hq as [[x y] [<- _]]; apply H.
Qed.


Lemma square_nonneg (x : Q) : 0 <= square x.
Proof. unfold square; simpl; nra. Qed.

End RationalFacts.

(** ** The physics residual and the combined loss *)

Section LossFacts.

Open Scope Q_scope.

(** Against the value [physics_loss] itself takes as expected, a
    prediction that meets it on every row has residual loss 0. *)
Lemma physics_loss_zero_at_expected_energy (inputs : list (list Q))
  (outputs : list Q) (a b g T : Q) :
  has_columns 9 inputs = true ->
  outputs = map (expected_energy a b g T) inputs ->
  exists v, physics_loss inputs outputs a b g T = Ok v /\ v == 0.
Proof.
  intros Hc ->; eexists; split.
  - apply physics_loss_rowwise; [exact Hc | apply length_map].
  - apply mean_zero; rewrite <- (map_id inputs) at 2.
    rewrite zip_with_map_map; apply Forall_forall; intros q Hq.
    apply in_map_iff in Hq; destruct Hq as [row [<- _]].
    unfold square; simpl; ring.
Qed.

(** C1 (defect of the code).  The nine columns are, in the order of
    [features], outflow, inflow, ammonia, ...; [physics_loss] unpacks them
    into the names [Q_in, Q_out, ammonia, ...], so its [Q_in] is the
    outflow and its [Q_out] the inflow.  On the one-row batch below the
    prediction that equals the expected value of the specification gives
    the residual loss 0 in the words of the specification and 1/40000 in
    the code. *)
Theorem physics_loss_swaps_flow_channels :
  let row := [1; 0; 0; 0; 1; 0; 15; 0; 0] in
  let predicted := expected_spec 0.01 0.005 0.002 15 row in
  channel "Average Inflow" row = nth 1 row 0 /\
  channel "Average Outflow" row = nth 0 row 0 /\
  predicted == 0.005 /\
  expected_energy 0.01 0.005 0.002 15 row == 0.01 /\
  physics_residual_spec [row] [predicted] 0.01 0.005 0.002 15 == 0 /\
  exists v,
    physics_loss [row] [predicted] 0.01 0.005 0.002 15 = Ok v /\
    v == 1 # 40000.
Proof.
  cbv zeta; repeat split; try reflexivity.
  eexists; split; [vm_compute; reflexivity | reflexivity].
Qed.


End LossFacts.

(** ** The scaler *)

Section ScalerFacts.

Open Scope Q_scope.

Lemma nth_zip_with {A B C : Type} (f : A -> B -> C) (a : list A) (b : list B)
  (j : nat) (da : A) (db : B) (dc : C) :
  (j < length a)%nat -> (j < length b)%nat ->
  nth j (zip_with f a b) dc = f (nth j a da) (nth j b db).
Proof.
  unfold zip_with; revert b j.
  induction a as [| x a IH]; intros [| y b] [| j]; simpl; intros Ha Hb;
    try lia; try reflexivity.
  apply IH; lia.
Qed.

Lemma nth_map_seq {A : Type} (f : nat -> A) (n j : nat) (d : A) :
  (j < n)%nat -> nth j (map f (seq 0 n)) d = f j.
Proof.
  intros H; rewrite (nth_indep _ d (f O)) by (rewrite length_map, length_seq; exact H).
  rewrite map_nth, seq_nth by exact H; reflexivity.
Qed.

Lemma Qmin_cases (x y : Q) : Qmin x y = x \/ Qmin x y = y.
Proof. unfold Qmin, GenericMinMax.gmin; destruct (x ?= y); auto. Qed.

Lemma Qmax_cases (x y : Q) : Qmax x y = x \/ Qmax x y = y.
Proof. unfold Qmax, GenericMinMax.gmax; destruct (x ?= y); auto. Qed.

Lemma fold_Qmin_spec (xs : list Q) (x : Q) :
  In (fold_left Qmin xs x) (x :: xs) /\
  forall y, In y (x :: xs) -> fold_left Qmin xs x <= y.
Proof.
  revert x; induction xs as [| z xs IH]; intros x; simpl.
  - split; [left; reflexivity | intros y [<- | []]; lra].
  - destruct (IH (Qmin x z)) as [Hin Hle]; split.
    + destruct Hin as [Hin | Hin]; [| right; right; exact Hin].
      rewrite <- Hin; destruct (Qmin_cases x z) as [E | E]; rewrite E; auto.
    + intros y [<- | [<- | Hy]].
      * apply Qle_trans with (Qmin x z); [apply Hle; left; reflexivity |].
        apply Q.le_min_l.
      * apply Qle_trans with (Qmin x z); [apply Hle; left; reflexivity |].
        apply Q.le_min_r.
      * apply Hle; right; exact Hy.
Qed.

Lemma fold_Qmax_spec (xs : list Q) (x : Q) :
  In (fold_left Qmax xs x) (x :: xs) /\
  forall y, In y (x :: xs) -> y <= fold_left Qmax xs x.
Proof.
  revert x; induction xs as [| z xs IH]; intros x; simpl.
  - split; [left; reflexivity | intros y [<- | []]; lra].
  - destruct (IH (Qmax x z)) as [Hin Hle]; split.
    + destruct Hin as [Hin | Hin]; [| right; right; exact Hin].
      rewrite <- Hin; destruct (Qmax_cases x z) as [E | E]; rewrite E; auto.
    + intros y [<- | [<- | Hy]].
      * apply Qle_trans with (Qmax x z); [apply Q.le_max_l |].
        apply Hle; left; reflexivity.
      * apply Qle_trans with (Qmax x z); [apply Q.le_max_r |].
        apply Hle; left; reflexivity.
      * apply Hle; right; exact Hy.
Qed.

(** [column_min] and [column_max] are the least and the greatest entry of
    a column that is not empty. *)
Lemma column_min_max_spec (c : list Q) :
  c <> [] ->
  In (column_min c) c /\ In (column_max c) c /\
  forall x, In x c -> column_min c <= x <= column_max c.
Proof.
  destruct c as [| x xs]; [congruence | intros _].
  destruct (fold_Qmin_spec xs x) as [Hmin Hle].
  destruct (fold_Qmax_spec xs x) as [Hmax Hge].
  unfold column_min, column_max; auto.
Qed.

Lemma handle_zero_pos (r : Q) : 0 < handle_zero r.
Proof.
  unfold handle_zero; destruct (Qle_bool (10 * float64_eps) r) eqn:E; simpl.
  - apply Qle_bool_iff in E.
    apply Qlt_le_trans with (10 * float64_eps); [reflexivity | exact E].
  - reflexivity.
Qed.

Lemma handle_zero_zero (r : Q) : r == 0 -> handle_zero r = 1.
Proof.
  intros H; unfold handle_zero.
  destruct (Qle_bool (10 * float64_eps) r) eqn:E; [| reflexivity].
  apply Qle_bool_iff in E; rewrite H in E.
  exfalso; revert E; apply Qlt_not_le; reflexivity.
Qed.

(** What [fit] leaves in the scaler, entry by entry. *)
Lemma fit_entries (X : list (list Q)) (s : MinMaxScaler) :
  fit X = Ok s ->
  n_features_in_ s = n_features X /\
  length (scale_ s) = n_features X /\
  length (min_ s) = n_features X /\
  forall j, (j < n_features X)%nat ->
    nth j (data_min_ s) 0 = column_min (column j X) /\
    nth j (data_max_ s) 0 = column_max (column j X) /\
    nth j (scale_ s) 0 =
      (1 - 0) / handle_zero (column_max (column j X) - column_min (column j X)) /\
    nth j (min_ s) 0 = 0 - column_min (column j X) * nth j (scale_ s) 0.
Proof.
  unfold fit; destruct (check_array X) as [[] | e]; simpl; [| discriminate].
  intros H; injection H as <-; simpl.
  set (n := n_features X).
  assert (Hlen : forall (A : Type) (f : nat -> A), length (map f (seq 0 n)) = n)
    by (intros; rewrite length_map, length_seq; reflexivity).
  assert (Hs : length
                 (map (fun r => (1 - 0) / r)
                    (handle_zeros_in_scale
                       (zip_with Qminus
                          (map (fun j => column_max (column j X)) (seq 0 n))
                          (map (fun j => column_min (column j X)) (seq 0 n))))) = n).
  { unfold handle_zeros_in_scale.
    rewrite !length_map, length_zip_with, !Hlen; apply Nat.min_id. }
  split; [reflexivity | split; [exact Hs | split]].
  - rewrite length_zip_with, Hlen, Hs; apply Nat.min_id.
  - intros j Hj.
    assert (Emin : nth j (map (fun j => column_min (column j X)) (seq 0 n)) 0
                   = column_min (column j X))
      by (apply (nth_map_seq (fun j => column_min (column j X))); exact Hj).
    assert (Emax : nth j (map (fun j => column_max (column j X)) (seq 0 n)) 0
                   = column_max (column j X))
      by (apply (nth_map_seq (fun j => column_max (column j X))); exact Hj).
    assert (Esc : nth j
                    (map (fun r => (1 - 0) / r)
                       (handle_zeros_in_scale
                          (zip_with Qminus
                             (map (fun j => column_max (column j X)) (seq 0 n))
                             (map (fun j => column_min (column j X)) (seq 0 n))))) 0
                  = (1 - 0) / handle_zero (column_max (column j X) - column_min (column j X))).
    { unfold handle_zeros_in_scale; rewrite map_map.
      rewrite (nth_indep _ 0 ((fun x => (1 - 0) / handle_zero x) 0))
        by (rewrite length_map, length_zip_with, !Hlen, Nat.min_id; exact Hj).
      rewrite (map_nth (fun x => (1 - 0) / handle_zero x)).
      rewrite (nth_zip_with Qminus _ _ j 0 0 0) by (rewrite Hlen; exact Hj).
      rewrite Emin, Emax; reflexivity. }
    split; [exact Emin | split; [exact Emax | split; [exact Esc |]]].
    rewrite (nth_zip_with _ _ _ j 0 0 0) by (rewrite ?Hlen, ?Hs; exact Hj).
    rewrite Emin; reflexivity.
Qed.

Lemma fit_scale_pos (X : list (list Q)) (s : MinMaxScaler) (j : nat) :
  fit X = Ok s -> (j < n_features X)%nat -> 0 < nth j (scale_ s) 0.
Proof.
  intros Hfit Hj; destruct (fit_entries _ _ Hfit) as [_ [_ [_ H]]].
  destruct (H j Hj) as [_ [_ [-> _]]].
  apply Qlt_shift_div_l; [apply handle_zero_pos | reflexivity].
Qed.

End ScalerFacts.

Section ScalerClaims.

Open Scope Q_scope.

Lemma check_array_ok (X : list (list Q)) :
  X <> [] -> n_features X <> O -> check_array X = Ok tt.
Proof.
  intros HX Hn; unfold check_array.
  destruct X as [| row X]; [congruence |]; simpl in *.
  destruct (length row); [congruence | reflexivity].
Qed.

(** C2 (as the code has it).  [fit] has no failure for a constant column:
    on every array with at least one row and one column it returns the
    least and the greatest entry of each column, and a column whose
    greatest and least entries agree gets the scale 1, so that its entries
    are transformed to 0. *)
Theorem fit_succeeds_on_constant_columns (X : list (list Q)) :
  X <> [] ->
  n_features X <> O ->
  exists s,
    fit X = Ok s /\
    n_features_in_ s = n_features X /\
    forall j, (j < n_features X)%nat ->
      let c := column j X in
      nth j (data_min_ s) 0 = column_min c /\
      nth j (data_max_ s) 0 = column_max c /\
      In (column_min c) c /\ In (column_max c) c /\
      (forall x, In x c -> column_min c <= x <= column_max c) /\
      (column_max c == column_min c ->
       nth j (scale_ s) 0 == 1 /\
       forall x, In x c -> x * nth j (scale_ s) 0 + nth j (min_ s) 0 == 0).
Proof.
  intros HX Hn.
  assert (Hfit : exists s, fit X = Ok s).
  { unfold fit; rewrite (check_array_ok X HX Hn); simpl; eexists; reflexivity. }
  destruct Hfit as [s Hfit]; exists s.
  destruct (fit_entries _ _ Hfit) as [Hnf [_ [_ Hj]]].
  split; [exact Hfit | split; [exact Hnf |]].
  intros j Hlt c; destruct (Hj j Hlt) as [Emin [Emax [Esc Emn]]].
  assert (Hc : c <> []).
  { unfold c, column; destruct X; [congruence | discriminate]. }
  destruct (column_min_max_spec c Hc) as [Imin [Imax Hb]].
  repeat split; try assumption; try (apply Hb; assumption).
  - fold c in Esc; rewrite Esc, handle_zero_zero by lra; reflexivity.
  - intros x Hx; fold c in Esc, Emn; rewrite Emn, Esc.
    rewrite handle_zero_zero by lra.
    destruct (Hb x Hx) as [H1 H2]; field_simplify; lra.
Qed.

(** C2, the claim as stated, fails: the second column below is constant
    and [fit] returns a scaler. *)
Lemma fit_constant_column_returns :
  let X := [[1; 5]; [2; 5]] in
  column_max (column 1 X) == column_min (column 1 X) /\
  ~ fails (fit X) /\
  exists s, fit X = Ok s /\
    data_min_ s = [1; 5] /\ data_max_ s = [2; 5] /\ scale_ s = [1; 1].
Proof.
  cbv zeta; split; [reflexivity | split].
  - intros [e H]; vm_compute in H; discriminate H.
  - eexists; split; [vm_compute; reflexivity | repeat split].
Qed.

(** The round trip of one entry, without conditions on the column. *)
Lemma round_trip_entry (X : list (list Q)) (s : MinMaxScaler) (row : list Q)
  (j : nat) :
  fit X = Ok s ->
  length row = n_features_in_ s ->
  (j < n_features_in_ s)%nat ->
  transform s [row] = Ok [transform_row s row] /\
  inverse_transform s [transform_row s row] =
    Ok [inverse_transform_row s (transform_row s row)] /\
  nth j (inverse_transform_row s (transform_row s row)) 0 == nth j row 0.
Proof.
  intros Hfit Hrow Hj.
  destruct (fit_entries _ _ Hfit) as [Hnf [Hls [Hlm _]]].
  assert (Hpos : 0 < nth j (scale_ s) 0)
    by (apply (fit_scale_pos X s j Hfit); rewrite <- Hnf; exact Hj).
  rewrite <- Hnf in Hls, Hlm.
  assert (Hlt : length (transform_row s row) = n_features_in_ s).
  { unfold transform_row; rewrite !length_zip_with, Hrow, Hls, Hlm.
    rewrite !Nat.min_id; reflexivity. }
  repeat split.
  - unfold transform; rewrite check_array_ok; simpl.
    + rewrite Hrow, Nat.eqb_refl; reflexivity.
    + discriminate.
    + rewrite Hrow; lia.
  - unfold inverse_transform; rewrite check_array_ok; simpl.
    + rewrite Hlt, Nat.eqb_refl; reflexivity.
    + discriminate.
    + rewrite Hlt; lia.
  - unfold inverse_transform_row.
    rewrite (nth_zip_with Qdiv _ _ j 0 0 0)
      by (rewrite ?length_zip_with, ?Hlt, ?Hlm, ?Hls, ?Nat.min_id; exact Hj).
    rewrite (nth_zip_with Qminus _ _ j 0 0 0)
      by (rewrite ?Hlt, ?Hlm; exact Hj).
    unfold transform_row.
    rewrite (nth_zip_with Qplus _ _ j 0 0 0)
      by (rewrite ?length_zip_with, ?Hrow, ?Hlm, ?Hls, ?Nat.min_id; exact Hj).
    rewrite (nth_zip_with Qmult _ _ j 0 0 0)
      by (rewrite ?Hrow, ?Hls; exact Hj).
    field; lra.
Qed.

(** C5.  For a fitted column with min < max and an entry x between them,
    the inverse transform of the transform of x is x, hence within any
    tolerance of it. *)
Theorem inverse_transform_recovers (X : list (list Q)) (s : MinMaxScaler)
  (row : list Q) (j : nat) (tol : Q) :
  fit X = Ok s ->
  length row = n_features_in_ s ->
  (j < n_features_in_ s)%nat ->
  nth j (data_min_ s) 0 < nth j (data_max_ s) 0 ->
  nth j (data_min_ s) 0 <= nth j row 0 <= nth j (data_max_ s) 0 ->
  0 <= tol ->
  exists scaled back,
    transform s [row] = Ok [scaled] /\
    inverse_transform s [scaled] = Ok [back] /\
    nth j back 0 == nth j row 0 /\
    Qabs (nth j back 0 - nth j row 0) <= tol.
Proof.
  intros Hfit Hrow Hj _ _ Htol.
  destruct (round_trip_entry X s row j Hfit Hrow Hj) as [Ht [Hi Heq]].
  exists (transform_row s row), (inverse_transform_row s (transform_row s row)).
  repeat split; try assumption.
  rewrite Heq; apply Qabs_Qle_condition; lra.
Qed.

End ScalerClaims.

(** ** The split *)

Lemma ceiling_quarter (z : Z) :
  Qceiling (0.25 * inject_Z z) = (- ((- (25 * z)) / 100))%Z.
Proof. reflexivity. Qed.

Lemma floor_three_quarters (z : Z) :
  Qfloor ((1 - 0.25) * inject_Z z) = ((75 * z) / 100)%Z.
Proof. reflexivity. Qed.

Lemma ceiling_quarter_bounds (z : Z) :
  (0 <= z)%Z ->
  (4 * (- ((- (25 * z)) / 100)) - 3 <= z <= 4 * (- ((- (25 * z)) / 100)))%Z.
Proof. intros H; Z.div_mod_to_equations; lia. Qed.

(** The validation part takes the ceiling of a quarter, the training part
    the floor of three quarters. *)
Lemma split_sizes (n : nat) :
  let n_test := Z.to_nat (Qceiling (0.25 * inject_Z (Z.of_nat n))) in
  (n_test <= n)%nat /\
  (2 <= n -> 1 <= n_test < n)%nat /\
  Z.to_nat (Qfloor ((1 - 0.25) * inject_Z (Z.of_nat n))) = (n - n_test)%nat.
Proof.
  cbv zeta; rewrite ceiling_quarter, floor_three_quarters.
  pose proof (ceiling_quarter_bounds (Z.of_nat n) (Nat2Z.is_nonneg n)) as Hb.
  set (c := (- (- (25 * Z.of_nat n) / 100))%Z) in *.
  assert (E : (75 * Z.of_nat n / 100 = Z.of_nat n - c)%Z).
  { symmetry.
    apply Z.div_unique with (r := (75 * Z.of_nat n - 100 * (Z.of_nat n - c))%Z);
      lia. }
  rewrite E; lia.
Qed.

Lemma validate_shuffle_split_quarter (n : nat) :
  (2 <= n)%nat ->
  let n_test := Z.to_nat (Qceiling (0.25 * inject_Z (Z.of_nat n))) in
  validate_shuffle_split n 0.25 = Ok ((n - n_test)%nat, n_test).
Proof.
  intros Hn n_test; unfold validate_shuffle_split.
  change (Qle_bool 0.25 0 || Qle_bool 1 0.25) with false; cbv iota.
  fold n_test; destruct (split_sizes n) as [_ [H _]]; fold n_test in H.
  destruct (Nat.eqb_spec (n - n_test) 0); [lia | reflexivity].
Qed.

Lemma NoDup_app_disjoint {A : Type} (l1 l2 : list A) :
  NoDup (l1 ++ l2) -> forall a, In a l1 -> ~ In a l2.
Proof.
  induction l1 as [| x l1 IH]; simpl; intros H a Ha; [contradiction |].
  inversion H as [| ? ? Hx Hnd]; subst.
  destruct Ha as [<- | Ha].
  - intros Hin; apply Hx, in_or_app; right; exact Hin.
  - apply IH; assumption.
Qed.

(** Indexing with indices in range returns the entries at them. *)
Lemma mapM_getitem {A : Type} (a : list A) (idxs : list nat) :
  Forall (fun i => (i < length a)%nat) idxs ->
  exists l,
    mapM (getitem a) idxs = Ok l /\
    Forall2 (fun i x => nth_error a i = Some x) idxs l.
Proof.
  induction 1 as [| i idxs Hi _ [l [El Hl]]]; simpl.
  - exists []; split; [reflexivity | constructor].
  - unfold getitem at 1.
    destruct (nth_error a i) as [x |] eqn:E;
      [| apply nth_error_None in E; lia].
    simpl; rewrite El; simpl; exists (x :: l); split; [reflexivity |].
    constructor; assumption.
Qed.

Section SplitFacts.

Variable NpRng : Type.
Variable RandomState : nat -> NpRng.
Variable permutation : NpRng -> nat -> list nat * NpRng.

(** What numpy documents of [rng.permutation(n)]: a rearrangement of
    [0, ..., n-1]. *)
Hypothesis permutation_spec :
  forall g n, Permutation (fst (permutation g n)) (seq 0 n).

Lemma shuffle_split_partition (rng : NpRng) (n n_test : nat) :
  (n_test <= n)%nat ->
  let '(train, test, _) :=
    shuffle_split permutation rng n (n - n_test) n_test in
  test ++ train = fst (permutation rng n) /\
  length test = n_test /\ length train = (n - n_test)%nat.
Proof.
  intros Hle; unfold shuffle_split.
  pose proof (permutation_spec rng n) as Hp.
  destruct (permutation rng n) as [perm rng']; simpl in *.
  assert (Hlen : length perm = n)
    by (rewrite (Permutation_length Hp); apply length_seq).
  assert (Hskip : length (skipn n_test perm) = (n - n_test)%nat)
    by (rewrite length_skipn, Hlen; reflexivity).
  rewrite (@firstn_all2 _ (n - n_test) (skipn n_test perm))
    by (rewrite Hskip; apply Nat.le_refl).
  split; [apply firstn_skipn | split; [| exact Hskip]].
  rewrite length_firstn, Hlen; lia.
Qed.

(** For N >= 2 the index sets are the two ends of the permutation. *)
Lemma split_indices_permutation (g : NpRng) (n : nat)
  (random_state : option nat) :
  (2 <= n)%nat ->
  let n_test := Z.to_nat (Qceiling (0.25 * inject_Z (Z.of_nat n))) in
  exists train test,
    split_indices RandomState permutation g n 0.25 random_state
      = Ok (train, test) /\
    Permutation (test ++ train) (seq 0 n) /\
    length test = n_test /\
    length train = (n - n_test)%nat.
Proof.
  intros Hn n_test; unfold split_indices.
  rewrite (validate_shuffle_split_quarter n Hn); simpl bind; cbv zeta.
  destruct (split_sizes n) as [Hle _]; fold n_test in Hle |- *.
  set (rng := check_random_state RandomState g random_state).
  pose proof (shuffle_split_partition rng n n_test Hle) as Hp.
  pose proof (permutation_spec rng n) as Hperm.
  destruct (shuffle_split permutation rng n (n - n_test) n_test)
    as [[train test] rng'].
  destruct Hp as [Happ [Htest Htrain]].
  rewrite <- Happ in Hperm.
  exists train, test; auto.
Qed.

(** C4 (as the code has it).  For N >= 2 samples and the fraction 0.25,
    the validation indices are the first ceil(N * 0.25) of the
    permutation and the training indices the remaining
    N - ceil(N * 0.25) = floor(N * 0.75); the two sets have no index in
    common and between them hold every index below N exactly once. *)
Theorem split_partitions_indices (g : NpRng) (n : nat)
  (random_state : option nat) :
  (2 <= n)%nat ->
  exists train test,
    split_indices RandomState permutation g n 0.25 random_state
      = Ok (train, test) /\
    length test = Z.to_nat (Qceiling (0.25 * inject_Z (Z.of_nat n))) /\
    length train = (n - length test)%nat /\
    length train = Z.to_nat (Qfloor ((1 - 0.25) * inject_Z (Z.of_nat n))) /\
    (length train + length test = n)%nat /\
    (forall i, In i train -> ~ In i test) /\
    NoDup train /\ NoDup test /\
    (forall i, (i < n)%nat <-> In i train \/ In i test).
Proof.
  intros Hn.
  destruct (split_indices_permutation g n random_state Hn)
    as [train [test [Es [Hperm [Htest Htrain]]]]].
  destruct (split_sizes n) as [Hle [Hlt Hfloor]].
  specialize (Hlt Hn).
  set (n_test := Z.to_nat (Qceiling (0.25 * inject_Z (Z.of_nat n)))) in *.
  assert (Hnd : NoDup (test ++ train))
    by (apply (Permutation_NoDup (Permutation_sym Hperm)), seq_NoDup).
  exists train, test; split; [exact Es |].
  split; [exact Htest |].
  split; [rewrite Htest; exact Htrain |].
  split; [rewrite Htrain; symmetry; exact Hfloor |].
  split; [lia |].
  split; [intros i Hi Ht; exact (NoDup_app_disjoint _ _ Hnd i Ht Hi) |].
  split; [exact (NoDup_app_remove_l _ _ Hnd) |].
  split; [exact (NoDup_app_remove_r _ _ Hnd) |].
  intros i; split.
  - intros Hi.
    assert (Hin : In i (test ++ train)).
    { apply (Permutation_in i (Permutation_sym Hperm)), in_seq; lia. }
    apply in_app_or in Hin; tauto.
  - intros Hi.
    assert (Hin : In i (test ++ train)) by (apply in_or_app; tauto).
    apply (Permutation_in i Hperm), in_seq in Hin; lia.
Qed.

(** On arrays of N >= 2 rows the split returns: the four parts hold the
    rows at the training and at the validation indices. *)
Lemma train_test_split_returns {A B : Type} (g : NpRng) (X : list A)
  (y : list B) (random_state : option nat) :
  (2 <= length X)%nat ->
  length y = length X ->
  exists train test sd g',
    split_indices RandomState permutation g (length X) 0.25 random_state
      = Ok (train, test) /\
    train_test_split RandomState permutation g X y 0.25 random_state
      = Ok (sd, g') /\
    Forall2 (fun i x => nth_error X i = Some x) train (X_train sd) /\
    Forall2 (fun i x => nth_error X i = Some x) test (X_val sd) /\
    Forall2 (fun i x => nth_error y i = Some x) train (y_train sd) /\
    Forall2 (fun i x => nth_error y i = Some x) test (y_val sd).
Proof.
  intros Hn Hy.
  destruct (split_indices_permutation g (length X) random_state Hn)
    as [train [test [Es [Hperm _]]]].
  assert (Hcov : forall i, In i (test ++ train) -> (i < length X)%nat)
    by (intros i Hi; apply (Permutation_in i Hperm), in_seq in Hi; lia).
  assert (Htr : Forall (fun i => (i < length X)%nat) train)
    by (apply Forall_forall; intros i Hi; apply Hcov, in_or_app; right; exact Hi).
  assert (Hte : Forall (fun i => (i < length X)%nat) test)
    by (apply Forall_forall; intros i Hi; apply Hcov, in_or_app; left; exact Hi).
  destruct (mapM_getitem X train Htr) as [xtr [E1 F1]].
  destruct (mapM_getitem X test Hte) as [xte [E2 F2]].
  rewrite <- Hy in Htr, Hte.
  destruct (mapM_getitem y train Htr) as [ytr [E3 F3]].
  destruct (mapM_getitem y test Hte) as [yte [E4 F4]].
  exists train, test; do 2 eexists; split; [exact Es |].
  unfold train_test_split, safe_indexing.
  rewrite Hy, Nat.eqb_refl; simpl negb; cbv iota zeta.
  rewrite Es; simpl bind; rewrite E1; simpl bind; rewrite E2; simpl bind.
  rewrite E3; simpl bind; rewrite E4; simpl bind.
  split; [reflexivity | simpl; auto].
Qed.

(** C7.  With an integer [random_state] the split draws from a generator
    of its own, seeded by it: two calls on the same arrays and the same
    seed return the same index sets and the same four parts, whatever the
    state of numpy's global generator; and so do two runs of lines 24-57
    on the same table. *)
Theorem split_is_determined_by_seed :
  (forall (g1 g2 : NpRng) (n : nat) (test_size : Q) (seed : nat),
     split_indices RandomState permutation g1 n test_size (Some seed) =
     split_indices RandomState permutation g2 n test_size (Some seed)) /\
  (forall (A B : Type) (g1 g2 : NpRng) (X : list A) (y : list B)
          (test_size : Q) (seed : nat),
     result_map fst
       (train_test_split RandomState permutation g1 X y test_size (Some seed)) =
     result_map fst
       (train_test_split RandomState permutation g2 X y test_size (Some seed))) /\
  (forall (F : Type) (SF : Scalar F) (g1 g2 : NpRng) (data : DataFrame),
     prepare (F := F) RandomState permutation g1 data =
     prepare (F := F) RandomState permutation g2 data).
Proof.
  assert (Hidx : forall (g1 g2 : NpRng) n test_size seed,
             split_indices RandomState permutation g1 n test_size (Some seed) =
             split_indices RandomState permutation g2 n test_size (Some seed))
    by reflexivity.
  split; [exact Hidx | split].
  - intros A B g1 g2 X y test_size seed; unfold train_test_split.
    destruct (negb (length X =? length y)%nat); [reflexivity |].
    rewrite (Hidx g1 g2).
    destruct (split_indices RandomState permutation g2 (length X) test_size
                (Some seed)) as [[train test] | e]; [| reflexivity].
    simpl bind; unfold safe_indexing.
    destruct (mapM (getitem X) train); [| reflexivity].
    destruct (mapM (getitem X) test); [| reflexivity].
    destruct (mapM (getitem y) train); [| reflexivity].
    destruct (mapM (getitem y) test); reflexivity.
  - reflexivity.
Qed.

End SplitFacts.

(** C4, the claim as stated, fails.  Of N = 5 indices the training part
    gets 3, not ceil(5 * 0.75) = 4; and a single sample cannot be split. *)
Lemma split_training_size_is_not_the_ceiling :
  (exists train test,
     split_indices counting_RandomState reversing_permutation O 5 0.25
       (Some 42%nat) = Ok (train, test) /\
     train = [2; 1; 0]%nat /\ test = [4; 3]%nat /\
     length train <> Z.to_nat (Qceiling (5 * (1 - 0.25)))) /\
  split_indices counting_RandomState reversing_permutation O 1 0.25
    (Some 42%nat) = Raise ValueError.
Proof.
  split; [| reflexivity].
  exists [2; 1; 0]%nat, [4; 3]%nat; repeat split.
  vm_compute; discriminate.
Qed.

(** ** Batches *)

Lemma batch_sampler_In (bs : nat) (sampler batch b : list nat) (i : nat) :
  In b (batch_sampler bs batch sampler) -> In i b ->
  In i batch \/ In i sampler.
Proof.
  revert batch; induction sampler as [| idx rest IH]; intros batch Hb Hi;
    simpl in Hb.
  - destruct batch as [| x batch]; [contradiction |].
    destruct Hb as [<- | []]; left; exact Hi.
  - destruct (length (batch ++ [idx]) =? bs)%nat.
    + destruct Hb as [<- | Hb].
      * apply in_app_or in Hi; destruct Hi as [Hi | [<- | []]];
          [left; exact Hi | right; left; reflexivity].
      * destruct (IH [] Hb Hi) as [[] | H]; right; right; exact H.
    + destruct (IH _ Hb Hi) as [H | H]; [| right; right; exact H].
      apply in_app_or in H; destruct H as [H | [<- | []]];
        [left; exact H | right; left; reflexivity].
Qed.

Lemma batch_sampler_sizes (bs : nat) (sampler batch : list nat) :
  (length batch < bs)%nat ->
  map (@length nat) (batch_sampler bs batch sampler)
  = batch_sizes bs (length batch + length sampler).
Proof.
  unfold batch_sizes; revert batch.
  induction sampler as [| idx rest IH]; intros batch Hlt; simpl.
  - rewrite Nat.add_0_r, (Nat.div_small _ _ Hlt), (Nat.mod_small _ _ Hlt).
    destruct batch as [| x batch]; reflexivity.
  - assert (Hl : length (batch ++ [idx]) = S (length batch))
      by (rewrite length_app; simpl; lia).
    destruct (Nat.eqb_spec (length (batch ++ [idx])) bs) as [E | NE].
    + simpl map; rewrite (IH [] ltac:(simpl; lia)); simpl length.
      replace (length batch + S (length rest))%nat
        with (1 * bs + length rest)%nat by lia.
      rewrite Nat.div_add_l by lia.
      replace (1 * bs + length rest)%nat with (length rest + 1 * bs)%nat by lia.
      rewrite Nat.Div0.mod_add; rewrite E; reflexivity.
    + rewrite (IH (batch ++ [idx]) ltac:(lia)), Hl.
      replace (S (length batch) + length rest)%nat
        with (length batch + S (length rest))%nat by lia.
      reflexivity.
Qed.

Lemma length_batch_sizes (bs n : nat) :
  (0 < bs)%nat -> length (batch_sizes bs n) = ((n + bs - 1) / bs)%nat.
Proof.
  intros Hbs; unfold batch_sizes; rewrite length_app, repeat_length.
  pose proof (Nat.div_mod_eq n bs) as Hdm.
  pose proof (Nat.mod_upper_bound n bs ltac:(lia)) as Hub.
  destruct (Nat.eqb_spec (n mod bs) 0) as [E | NE]; simpl length.
  - apply Nat.div_unique with (r := (bs - 1)%nat); lia.
  - apply Nat.div_unique with (r := (n mod bs - 1)%nat); lia.
Qed.

(** [len(loader)] is the number of batches a pass yields. *)
Lemma batch_sampler_count (bs : nat) (sampler : list nat) :
  (0 < bs)%nat ->
  length (batch_sampler bs [] sampler) = ((length sampler + bs - 1) / bs)%nat.
Proof.
  intros Hbs.
  rewrite <- (length_map (@length nat)), batch_sampler_sizes by exact Hbs.
  apply length_batch_sizes; exact Hbs.
Qed.

(** ** The training loop *)

Section TrainerFacts.

Context {F : Type} {SF : Scalar F}.
Variable sigmoid : F -> F.
Variable OptState : Type.
Variable TorchRng : Type.
Variable backward_step :
  @Config F -> @PINN F -> OptState -> list (list F) -> list F
  -> @PINN F * OptState.
Variable base_seed : TorchRng -> Z * TorchRng.
Variable randperm : TorchRng -> nat -> list nat * TorchRng.

(** An update changes the values of the parameters, not their shapes. *)
Hypothesis backward_step_shape :
  forall cfg m o X y,
    pinn_shape m = true -> pinn_shape (fst (backward_step cfg m o X y)) = true.

(** [torch.randperm(n)] is a rearrangement of [0, ..., n-1]. *)
Hypothesis randperm_spec :
  forall g n, Permutation (fst (randperm g n)) (seq 0 n).

Lemma fetch_ok (dl : @DataLoader F) (idxs : list nat) :
  rows_ok (dataset dl) = true ->
  Forall (fun i => (i < length (dataset dl))%nat) idxs ->
  exists batch_X batch_y,
    fetch dl idxs = Ok (batch_X, batch_y) /\
    has_columns 9 batch_X = true /\
    length batch_y = length batch_X /\
    length batch_X = length idxs.
Proof.
  intros Hrows Hidx.
  destruct (mapM_getitem (dataset dl) idxs Hidx) as [items [E Hitems]].
  exists (map fst items), (map snd items); unfold fetch; rewrite E; simpl.
  split; [reflexivity | split; [| split]].
  - unfold has_columns; rewrite forallb_forall; intros row Hrow.
    apply in_map_iff in Hrow; destruct Hrow as [item [<- Hitem]].
    unfold rows_ok in Hrows; rewrite forallb_forall in Hrows.
    apply Hrows.
    clear E; induction Hitems as [| i x idxs' items' Hi _ IH]; [contradiction |].
    destruct Hitem as [<- | Hitem].
    + apply nth_error_In in Hi; exact Hi.
    + inversion Hidx; subst; apply IH; assumption.
  - rewrite !length_map; reflexivity.
  - rewrite length_map; symmetry; apply (Forall2_length Hitems).
Qed.

Lemma batch_loss_total (cfg : @Config F) (dl : @DataLoader F) (m : @PINN F)
  (idxs : list nat) :
  rows_ok (dataset dl) = true ->
  pinn_shape m = true ->
  Forall (fun i => (i < length (dataset dl))%nat) idxs ->
  exists batch_X batch_y loss,
    fetch dl idxs = Ok (batch_X, batch_y) /\
    combined_loss sigmoid m batch_X batch_y
      (alpha cfg) (beta cfg) (gamma cfg) (T_ref cfg) = Ok loss /\
    batch_loss sigmoid cfg dl m idxs = Ok loss.
Proof.
  intros Hrows Hm Hidx.
  destruct (fetch_ok dl idxs Hrows Hidx) as [bX [bY [Ef [Hc [Hl _]]]]].
  destruct (combined_loss_total sigmoid m bX bY
              (alpha cfg) (beta cfg) (gamma cfg) (T_ref cfg) Hm Hc Hl)
    as [outputs [phys [_ [_ [_ Ec]]]]].
  exists bX, bY; eexists; split; [exact Ef | split; [exact Ec |]].
  unfold batch_loss; rewrite Ef; simpl; exact Ec.
Qed.

(** The training pass takes every step: it returns the parameters after
    the last one and the running sum of the losses of all batches. *)
Lemma train_batches_spec (cfg : @Config F) (dl : @DataLoader F)
  (batches : list (list nat)) (m : @PINN F) (o : OptState) (acc : F) :
  rows_ok (dataset dl) = true ->
  pinn_shape m = true ->
  in_range dl batches ->
  exists m' o' ls,
    batch_losses sigmoid backward_step cfg dl batches m o = Ok ls /\
    length ls = length batches /\
    train_batches sigmoid backward_step cfg dl batches m o acc
      = Ok (m', o', fold_left fadd ls acc) /\
    pinn_shape m' = true.
Proof.
  intros Hrows; revert m o acc.
  induction batches as [| idxs rest IH]; intros m o acc Hm Hr; simpl.
  - exists m, o, []; auto.
  - inversion Hr as [| ? ? Hidx Hrest]; subst.
    destruct (batch_loss_total cfg dl m idxs Hrows Hm Hidx)
      as [bX [bY [loss [Ef [Ec _]]]]].
    rewrite Ef; simpl bind; rewrite Ec; simpl bind.
    pose proof (backward_step_shape cfg m o bX bY Hm) as Hm'.
    destruct (backward_step cfg m o bX bY) as [m1 o1]; simpl in Hm'.
    destruct (IH m1 o1 (fadd acc loss) Hm' Hrest)
      as [m' [o' [ls [El [Hlen [Et Hs]]]]]].
    exists m', o', (loss :: ls); rewrite El, Et; simpl.
    repeat split; auto.
Qed.

(** The validation pass adds up the losses of all batches under the
    parameters it was given. *)
Lemma eval_batches_spec (cfg : @Config F) (dl : @DataLoader F)
  (batches : list (list nat)) (m : @PINN F) (acc : F) :
  rows_ok (dataset dl) = true ->
  pinn_shape m = true ->
  in_range dl batches ->
  exists ls,
    mapM (batch_loss sigmoid cfg dl m) batches = Ok ls /\
    length ls = length batches /\
    eval_batches sigmoid cfg dl batches m acc = Ok (fold_left fadd ls acc).
Proof.
  intros Hrows Hm; revert acc.
  induction batches as [| idxs rest IH]; intros acc Hr; simpl.
  - exists []; auto.
  - inversion Hr as [| ? ? Hidx Hrest]; subst.
    destruct (batch_loss_total cfg dl m idxs Hrows Hm Hidx)
      as [bX [bY [loss [Ef [Ec Eb]]]]].
    rewrite Eb, Ef; simpl bind; rewrite Ec; simpl bind.
    destruct (IH (fadd acc loss) Hrest) as [ls [El [Hlen Ee]]].
    exists (loss :: ls); rewrite El, Ee; simpl; auto.
Qed.

Lemma loader_ok_parts (dl : @DataLoader F) :
  loader_ok dl = true ->
  (0 < loader_batch_size dl)%nat /\ (0 < length (dataset dl))%nat /\
  rows_ok (dataset dl) = true.
Proof.
  unfold loader_ok; rewrite !andb_true_iff, !negb_true_iff, !Nat.eqb_neq.
  intros [[H1 H2] H3]; repeat split; [lia | lia | exact H3].
Qed.

Lemma loader_len_pos (dl : @DataLoader F) :
  loader_ok dl = true -> (0 < loader_len dl)%nat.
Proof.
  intros H; destruct (loader_ok_parts dl H) as [Hbs [Hn _]]; unfold loader_len.
  apply Nat.div_str_pos; lia.
Qed.

(** One pass of a loader: batches of indices into its dataset, as many as
    [len(loader)], full ones first; without shuffling they follow the order
    of the dataset and the generator has given the base seed only. *)
Lemma loader_batches_spec (dl : @DataLoader F) (g : TorchRng) :
  (0 < loader_batch_size dl)%nat ->
  let batches := fst (loader_batches base_seed randperm dl g) in
  in_range dl batches /\
  length batches = loader_len dl /\
  map (@length nat) batches
    = batch_sizes (loader_batch_size dl) (length (dataset dl)) /\
  (shuffle dl = false ->
   loader_batches base_seed randperm dl g
   = (batch_sampler (loader_batch_size dl) [] (seq 0 (length (dataset dl))),
      snd (base_seed g))).
Proof.
  intros Hbs.
  assert (Hgen : forall sampler,
             Permutation sampler (seq 0 (length (dataset dl))) ->
             let batches := batch_sampler (loader_batch_size dl) [] sampler in
             in_range dl batches /\
             length batches = loader_len dl /\
             map (@length nat) batches
               = batch_sizes (loader_batch_size dl) (length (dataset dl))).
  { intros sampler Hp; cbv zeta.
    assert (Hlen : length sampler = length (dataset dl))
      by (rewrite (Permutation_length Hp); apply length_seq).
    split; [| split].
    - apply Forall_forall; intros b Hb; apply Forall_forall; intros i Hi.
      destruct (batch_sampler_In _ _ _ _ i Hb Hi) as [[] | Hin].
      apply (Permutation_in i Hp), in_seq in Hin; lia.
    - rewrite batch_sampler_count, Hlen by exact Hbs; reflexivity.
    - rewrite batch_sampler_sizes, Hlen by exact Hbs; reflexivity. }
  unfold loader_batches; cbv zeta; destruct (shuffle dl) eqn:Esh.
  - pose proof (randperm_spec (snd (base_seed g)) (length (dataset dl))) as Hp.
    destruct (randperm (snd (base_seed g)) (length (dataset dl))) as [perm g'];
      simpl in *.
    destruct (Hgen perm Hp) as [H1 [H2 H3]].
    repeat split; try assumption; discriminate.
  - simpl; destruct (Hgen _ (Permutation_refl _)) as [H1 [H2 H3]].
    repeat split; assumption.
Qed.

(** From well-shaped parameters and a loader that is neither empty nor
    ill-shaped, the training phase returns; it appends the sum of the
    losses of its steps over their number to the training history. *)
Lemma training_phase_spec (cfg : @Config F) (dl : @DataLoader F)
  (st : @TrainState F OptState TorchRng) :
  loader_ok dl = true ->
  pinn_shape (model st) = true ->
  exists st' ls,
    training_phase sigmoid backward_step base_seed randperm cfg dl st
    = Ok st' /\
    batch_losses sigmoid backward_step cfg dl
      (fst (loader_batches base_seed randperm dl (torch_rng st)))
      (model st) (optimizer st) = Ok ls /\
    length ls = loader_len dl /\
    train_losses st' = train_losses st ++ [fdiv (tsum ls) (of_nat (length ls))] /\
    val_losses st' = val_losses st /\
    pinn_shape (model st') = true.
Proof.
  intros Hok Hm; destruct (loader_ok_parts dl Hok) as [Hbs [Hn Hrows]].
  destruct (loader_batches_spec dl (torch_rng st) Hbs) as [Hr [Hlen _]].
  pose proof (loader_len_pos dl Hok) as Hpos.
  unfold training_phase.
  destruct (loader_batches base_seed randperm dl (torch_rng st))
    as [batches g'];
    simpl in Hr, Hlen |- *.
  destruct (train_batches_spec cfg dl batches (model st) (optimizer st) zero
              Hrows Hm Hr) as [m' [o' [ls [El [Hl [Et Hs]]]]]].
  rewrite Et; simpl bind; unfold div_len.
  destruct (Nat.eqb_spec (loader_len dl) 0) as [E | _]; [lia |]; simpl bind.
  eexists; exists ls; split; [reflexivity |]; simpl.
  split; [exact El | split; [congruence | split; [| split; [reflexivity | exact Hs]]]].
  unfold tsum; rewrite Hl, Hlen; reflexivity.
Qed.

Lemma validation_phase_spec (cfg : @Config F) (dl : @DataLoader F)
  (st : @TrainState F OptState TorchRng) :
  loader_ok dl = true ->
  pinn_shape (model st) = true ->
  exists st' ls,
    validation_phase sigmoid base_seed randperm cfg dl st = Ok st' /\
    mapM (batch_loss sigmoid cfg dl (model st))
      (fst (loader_batches base_seed randperm dl (torch_rng st))) = Ok ls /\
    length ls = loader_len dl /\
    val_losses st' = val_losses st ++ [fdiv (tsum ls) (of_nat (length ls))] /\
    train_losses st' = train_losses st /\
    model st' = model st /\
    optimizer st' = optimizer st /\
    torch_rng st' = snd (loader_batches base_seed randperm dl (torch_rng st)).
Proof.
  intros Hok Hm; destruct (loader_ok_parts dl Hok) as [Hbs [Hn Hrows]].
  destruct (loader_batches_spec dl (torch_rng st) Hbs) as [Hr [Hlen _]].
  pose proof (loader_len_pos dl Hok) as Hpos.
  unfold validation_phase.
  destruct (loader_batches base_seed randperm dl (torch_rng st))
    as [batches g'];
    simpl in Hr, Hlen |- *.
  destruct (eval_batches_spec cfg dl batches (model st) zero Hrows Hm Hr)
    as [ls [El [Hl Ee]]].
  rewrite Ee; simpl bind; unfold div_len.
  destruct (Nat.eqb_spec (loader_len dl) 0) as [E | _]; [lia |]; simpl bind.
  eexists; exists ls; split; [reflexivity |]; simpl.
  split; [exact El | split; [congruence | split; [| auto]]].
  unfold tsum; rewrite Hl, Hlen; reflexivity.
Qed.

(** What a phase that returns has done to the history. *)
Lemma training_phase_appends (cfg : @Config F) (dl : @DataLoader F)
  (st st' : @TrainState F OptState TorchRng) :
  training_phase sigmoid backward_step base_seed randperm cfg dl st = Ok st' ->
  exists a,
    train_losses st' = train_losses st ++ [a] /\ val_losses st' = val_losses st.
Proof.
  unfold training_phase.
  destruct (loader_batches base_seed randperm dl (torch_rng st))
    as [batches g'].
  destruct (train_batches sigmoid backward_step cfg dl batches (model st)
              (optimizer st) zero) as [[[m o] s] | e]; simpl; [| discriminate].
  destruct (div_len s (loader_len dl)) as [avg | e]; simpl; [| discriminate].
  intros H; injection H as <-; simpl; eauto.
Qed.

Lemma validation_phase_appends (cfg : @Config F) (dl : @DataLoader F)
  (st st' : @TrainState F OptState TorchRng) :
  validation_phase sigmoid base_seed randperm cfg dl st = Ok st' ->
  (exists b,
     val_losses st' = val_losses st ++ [b] /\ train_losses st' = train_losses st)
  /\ model st' = model st /\ optimizer st' = optimizer st.
Proof.
  unfold validation_phase.
  destruct (loader_batches base_seed randperm dl (torch_rng st))
    as [batches g'].
  destruct (eval_batches sigmoid cfg dl batches (model st) zero) as [s | e];
    simpl; [| discriminate].
  destruct (div_len s (loader_len dl)) as [avg | e]; simpl; [| discriminate].
  intros H; injection H as <-; simpl; eauto.
Qed.

(** A validation pass leaves the generator where the draw of the base
    seed of its iterator has put it. *)
Lemma validation_phase_draws_base_seed (cfg : @Config F) (dl : @DataLoader F)
  (st st' : @TrainState F OptState TorchRng) :
  shuffle dl = false ->
  validation_phase sigmoid base_seed randperm cfg dl st = Ok st' ->
  torch_rng st' = snd (base_seed (torch_rng st)).
Proof.
  intros Hsh; unfold validation_phase, loader_batches; cbv zeta; rewrite Hsh.
  destruct (eval_batches sigmoid cfg dl _ (model st) zero) as [s | e];
    simpl; [| discriminate].
  destruct (div_len s (loader_len dl)) as [avg | e]; simpl; [| discriminate].
  intros H; injection H as <-; reflexivity.
Qed.

Lemma train_epoch_appends (cfg : @Config F) (tl vl : @DataLoader F)
  (st st' : @TrainState F OptState TorchRng) :
  train_epoch sigmoid backward_step base_seed randperm cfg tl vl st = Ok st' ->
  exists a b,
    train_losses st' = train_losses st ++ [a] /\
    val_losses st' = val_losses st ++ [b].
Proof.
  unfold train_epoch; intros H; apply bind_ok in H; destruct H as [st1 [H1 H2]].
  apply training_phase_appends in H1; destruct H1 as [a [Ht Hv]].
  apply validation_phase_appends in H2; destruct H2 as [[b [Hv' Ht']] _].
  exists a, b; split; congruence.
Qed.

Lemma train_loop_appends (n : nat) (cfg : @Config F) (tl vl : @DataLoader F)
  (st st' : @TrainState F OptState TorchRng) :
  train_loop sigmoid backward_step base_seed randperm n cfg tl vl st = Ok st' ->
  exists ta va,
    length ta = n /\ length va = n /\
    train_losses st' = train_losses st ++ ta /\
    val_losses st' = val_losses st ++ va.
Proof.
  revert st; induction n as [| n IH]; intros st H; simpl in H.
  - injection H as <-; exists [], []; rewrite !app_nil_r; auto.
  - apply bind_ok in H; destruct H as [st1 [H1 H2]].
    apply train_epoch_appends in H1; destruct H1 as [a [b [Ht Hv]]].
    apply IH in H2; destruct H2 as [ta [va [Lt [Lv [Et Ev]]]]].
    exists (a :: ta), (b :: va); simpl.
    rewrite Et, Ev, Ht, Hv, <- !app_assoc; simpl; auto.
Qed.

(** The loop returns. *)
Lemma train_epoch_total (cfg : @Config F) (tl vl : @DataLoader F)
  (st : @TrainState F OptState TorchRng) :
  loader_ok tl = true -> loader_ok vl = true ->
  pinn_shape (model st) = true ->
  exists st',
    train_epoch sigmoid backward_step base_seed randperm cfg tl vl st
    = Ok st' /\
    pinn_shape (model st') = true.
Proof.
  intros Ht Hv Hm.
  destruct (training_phase_spec cfg tl st Ht Hm)
    as [st1 [ls [E1 [_ [_ [_ [_ Hm1]]]]]]].
  destruct (validation_phase_spec cfg vl st1 Hv Hm1)
    as [st2 [ls2 [E2 [_ [_ [_ [_ [Em _]]]]]]]].
  exists st2; unfold train_epoch; rewrite E1; simpl bind.
  split; [exact E2 | congruence].
Qed.

Lemma train_loop_total (n : nat) (cfg : @Config F) (tl vl : @DataLoader F)
  (st : @TrainState F OptState TorchRng) :
  loader_ok tl = true -> loader_ok vl = true ->
  pinn_shape (model st) = true ->
  exists st',
    train_loop sigmoid backward_step base_seed randperm n cfg tl vl st = Ok st'.
Proof.
  intros Ht Hv; revert st; induction n as [| n IH]; intros st Hm; simpl.
  - eauto.
  - destruct (train_epoch_total cfg tl vl st Ht Hv Hm) as [st1 [E1 Hm1]].
    rewrite E1; simpl bind; apply IH; exact Hm1.
Qed.

Lemma rows_ok_combine (X : list (list F)) (y : list F) :
  has_columns 9 X = true -> rows_ok (combine X y) = true.
Proof.
  unfold has_columns, rows_ok; rewrite !forallb_forall; intros H [x t] Hin.
  apply in_combine_l in Hin; simpl; apply H; exact Hin.
Qed.

Lemma data_loader_ok (X : list (list F)) (y : list F) (bs : nat) (sh : bool) :
  (0 < bs)%nat -> X <> [] -> length y = length X ->
  has_columns 9 X = true ->
  exists dl,
    data_loader (combine X y) bs sh = Ok dl /\
    loader_ok dl = true /\ shuffle dl = sh.
Proof.
  intros Hbs HX Hy Hc.
  assert (Hlen : length (combine X y) <> O).
  { rewrite length_combine, Hy, Nat.min_id; destruct X; [congruence | discriminate]. }
  unfold data_loader.
  destruct (Nat.eqb_spec bs 0) as [E | NE]; [lia |].
  destruct (Nat.eqb_spec (length (combine X y)) 0) as [E | _]; [congruence |].
  rewrite andb_false_r; eexists; split; [reflexivity |].
  unfold loader_ok; simpl.
  destruct (Nat.eqb_spec bs 0) as [E | _]; [lia |].
  destruct (Nat.eqb_spec (length (combine X y)) 0) as [E | _]; [congruence |].
  rewrite rows_ok_combine by exact Hc; auto.
Qed.

Lemma train_total (cfg : @Config F) (m0 : @PINN F) (o0 : OptState)
  (g0 : TorchRng) (X_tr : list (list F)) (y_tr : list F)
  (X_v : list (list F)) (y_v : list F) :
  (0 < batch_size cfg)%nat ->
  X_tr <> [] -> length y_tr = length X_tr -> has_columns 9 X_tr = true ->
  X_v <> [] -> length y_v = length X_v -> has_columns 9 X_v = true ->
  pinn_shape m0 = true ->
  exists st,
    train sigmoid backward_step base_seed randperm cfg m0 o0 g0
      X_tr y_tr X_v y_v = Ok st /\
    length (train_losses st) = epochs cfg /\
    length (val_losses st) = epochs cfg.
Proof.
  intros Hbs Ht1 Ht2 Ht3 Hv1 Hv2 Hv3 Hm.
  destruct (data_loader_ok X_tr y_tr (batch_size cfg) true Hbs Ht1 Ht2 Ht3)
    as [tl [Etl [Htl _]]].
  destruct (data_loader_ok X_v y_v (batch_size cfg) false Hbs Hv1 Hv2 Hv3)
    as [vl [Evl [Hvl _]]].
  unfold train; rewrite Etl; simpl bind; rewrite Evl; simpl bind.
  match goal with
  | |- context [train_loop _ _ _ _ _ _ _ _ ?st0] =>
      destruct (train_loop_total (epochs cfg) cfg tl vl st0 Htl Hvl Hm)
        as [st E]
  end.
  exists st; split; [exact E |].
  apply train_loop_appends in E; destruct E as [ta [va [Lt [Lv [Et Ev]]]]].
  simpl in Et, Ev; rewrite Et, Ev; auto.
Qed.

(** C8.  A completed epoch appends one entry to each of the two
    histories and leaves the earlier entries as they are; so do any number
    of epochs; and training on well-shaped data returns with as many
    entries in each as there are epochs. *)
Theorem loss_history_grows_by_one_per_epoch (cfg : @Config F) (m0 : @PINN F)
  (o0 : OptState) (g0 : TorchRng) (X_tr : list (list F)) (y_tr : list F)
  (X_v : list (list F)) (y_v : list F) :
  (0 < batch_size cfg)%nat ->
  X_tr <> [] -> length y_tr = length X_tr -> has_columns 9 X_tr = true ->
  X_v <> [] -> length y_v = length X_v -> has_columns 9 X_v = true ->
  pinn_shape m0 = true ->
  (forall tl vl st st',
     train_epoch sigmoid backward_step base_seed randperm cfg tl vl st
     = Ok st' ->
     exists a b,
       train_losses st' = train_losses st ++ [a] /\
       val_losses st' = val_losses st ++ [b]) /\
  (forall n tl vl st st',
     train_loop sigmoid backward_step base_seed randperm n cfg tl vl st
     = Ok st' ->
     exists ta va,
       length ta = n /\ length va = n /\
       train_losses st' = train_losses st ++ ta /\
       val_losses st' = val_losses st ++ va) /\
  exists st,
    train sigmoid backward_step base_seed randperm cfg m0 o0 g0
      X_tr y_tr X_v y_v = Ok st /\
    length (train_losses st) = epochs cfg /\
    length (val_losses st) = epochs cfg.
Proof.
  intros Hbs Ht1 Ht2 Ht3 Hv1 Hv2 Hv3 Hm; split; [| split].
  - intros tl vl st st'; apply train_epoch_appends.
  - intros n tl vl st st'; apply train_loop_appends.
  - apply train_total; assumption.
Qed.

(** C9.  The validation phase takes the batches in the order of the
    dataset, whatever the state of the generator and without drawing a
    permutation, adds up their combined losses under the parameters it
    finds and appends the sum over the number of batches; the parameters
    and the optimizer state after it are the ones before it. *)
Theorem validation_leaves_parameters_unchanged (cfg : @Config F)
  (vl : @DataLoader F) (st : @TrainState F OptState TorchRng) :
  loader_ok vl = true ->
  shuffle vl = false ->
  pinn_shape (model st) = true ->
  (exists st' ls,
     validation_phase sigmoid base_seed randperm cfg vl st = Ok st' /\
     mapM (batch_loss sigmoid cfg vl (model st))
       (batch_sampler (loader_batch_size vl) [] (seq 0 (length (dataset vl))))
       = Ok ls /\
     length ls = loader_len vl /\
     val_losses st' = val_losses st ++ [fdiv (tsum ls) (of_nat (length ls))] /\
     model st' = model st /\
     optimizer st' = optimizer st) /\
  (forall st1 st2 : @TrainState F OptState TorchRng,
     validation_phase sigmoid base_seed randperm cfg vl st1 = Ok st2 ->
     model st2 = model st1 /\ optimizer st2 = optimizer st1).
Proof.
  intros Hok Hsh Hm; split.
  - destruct (loader_ok_parts vl Hok) as [Hbs _].
    destruct (loader_batches_spec vl (torch_rng st) Hbs) as [_ [_ [_ Hseq]]].
    specialize (Hseq Hsh).
    destruct (validation_phase_spec cfg vl st Hok Hm)
      as [st' [ls [E [El [Hl [Hv [_ [Em [Eo _]]]]]]]]].
    rewrite Hseq in El; simpl in El.
    exists st', ls; auto 10.
  - intros st1 st2 H; apply validation_phase_appends in H; tauto.
Qed.

(** C10.  The entry the training phase appends is the sum of the losses
    of its batches over the number of batches.  The batches are the full
    ones followed, when the size of the training set is not a multiple of
    the batch size, by a shorter one; each loss enters the sum once,
    whatever the size of its batch. *)
Theorem epoch_train_loss_is_mean_of_batch_losses (cfg : @Config F)
  (tl : @DataLoader F) (st : @TrainState F OptState TorchRng) :
  loader_ok tl = true ->
  pinn_shape (model st) = true ->
  let batches := fst (loader_batches base_seed randperm tl (torch_rng st)) in
  exists st' ls,
    training_phase sigmoid backward_step base_seed randperm cfg tl st
    = Ok st' /\
    batch_losses sigmoid backward_step cfg tl batches (model st) (optimizer st)
      = Ok ls /\
    map (@length nat) batches
      = batch_sizes (loader_batch_size tl) (length (dataset tl)) /\
    length ls = length batches /\
    length ls = loader_len tl /\
    train_losses st'
      = train_losses st ++ [fdiv (fold_left fadd ls zero) (of_nat (length ls))].
Proof.
  intros Hok Hm batches.
  destruct (loader_ok_parts tl Hok) as [Hbs _].
  destruct (loader_batches_spec tl (torch_rng st) Hbs) as [_ [Hlen [Hsz _]]].
  destruct (training_phase_spec cfg tl st Hok Hm)
    as [st' [ls [E [El [Hl [Ht _]]]]]].
  exists st', ls; fold batches in El, Hlen, Hsz.
  repeat split; try assumption; congruence.
Qed.

End TrainerFacts.

(** ** Losses that are not finite *)

Lemma xadd_not_finite_l (x y : xfloat) :
  is_finite x = false -> is_finite (xadd x y) = false.
Proof. destruct x, y; simpl; congruence. Qed.

Lemma xadd_not_finite_r (x y : xfloat) :
  is_finite y = false -> is_finite (xadd x y) = false.
Proof. destruct x, y; simpl; congruence. Qed.

Lemma fold_xadd_not_finite_acc (ls : list xfloat) (acc : xfloat) :
  is_finite acc = false -> is_finite (fold_left xadd ls acc) = false.
Proof.
  revert acc; induction ls as [| l ls IH]; intros acc H; simpl; [exact H |].
  apply IH, xadd_not_finite_l; exact H.
Qed.

(** A sum with a term that is not finite is not finite. *)
Lemma fold_xadd_not_finite (ls : list xfloat) (acc : xfloat) :
  Exists (fun l => is_finite l = false) ls ->
  is_finite (fold_left xadd ls acc) = false.
Proof.
  intros H; revert acc; induction H as [l ls Hl | l ls _ IH]; intros acc; simpl.
  - apply fold_xadd_not_finite_acc, xadd_not_finite_r; exact Hl.
  - apply IH.
Qed.

Lemma xdiv_not_finite (x : xfloat) (n : nat) :
  is_finite x = false -> is_finite (xdiv x (of_nat n)) = false.
Proof.
  unfold of_nat; simpl of_Q; destruct x; simpl; try congruence; intros _;
    destruct (Qle_bool 0 (inject_Z (Z.of_nat n))); reflexivity.
Qed.

Section NonFiniteLoss.

Variable sigmoid : xfloat -> xfloat.
Variable OptState : Type.
Variable TorchRng : Type.
Variable backward_step :
  @Config xfloat -> @PINN xfloat -> OptState -> list (list xfloat)
  -> list xfloat -> @PINN xfloat * OptState.
Variable base_seed : TorchRng -> Z * TorchRng.
Variable randperm : TorchRng -> nat -> list nat * TorchRng.

Hypothesis backward_step_shape :
  forall cfg m o X y,
    pinn_shape m = true -> pinn_shape (fst (backward_step cfg m o X y)) = true.

Hypothesis randperm_spec :
  forall g n, Permutation (fst (randperm g n)) (seq 0 n).

(** C3 (as the code has it).  The loop does not look at the loss.  On
    well-shaped data it returns after the configured number of epochs
    whatever the values of the losses; a training phase takes all its
    steps, and when the loss of one of them is NaN or infinite the entry
    it appends to the history is NaN or infinite as well. *)
Theorem training_continues_on_nonfinite_loss (cfg : @Config xfloat)
  (m0 : @PINN xfloat) (o0 : OptState) (g0 : TorchRng)
  (X_tr : list (list xfloat)) (y_tr : list xfloat)
  (X_v : list (list xfloat)) (y_v : list xfloat) :
  (0 < batch_size cfg)%nat ->
  X_tr <> [] -> length y_tr = length X_tr -> has_columns 9 X_tr = true ->
  X_v <> [] -> length y_v = length X_v -> has_columns 9 X_v = true ->
  pinn_shape m0 = true ->
  (exists st,
     train sigmoid backward_step base_seed randperm cfg m0 o0 g0
       X_tr y_tr X_v y_v = Ok st /\
     length (train_losses st) = epochs cfg /\
     length (val_losses st) = epochs cfg) /\
  (forall (tl : @DataLoader xfloat) (st : @TrainState xfloat OptState TorchRng),
     loader_ok tl = true ->
     pinn_shape (model st) = true ->
     exists st' ls a,
       training_phase sigmoid backward_step base_seed randperm cfg tl st
       = Ok st' /\
       batch_losses sigmoid backward_step cfg tl
         (fst (loader_batches base_seed randperm tl (torch_rng st)))
         (model st) (optimizer st) = Ok ls /\
       length ls = loader_len tl /\
       train_losses st' = train_losses st ++ [a] /\
       (Exists (fun l => is_finite l = false) ls -> is_finite a = false)).
Proof.
  intros Hbs Ht1 Ht2 Ht3 Hv1 Hv2 Hv3 Hm; split.
  - apply train_total; assumption.
  - intros tl st Hok Hst.
    destruct (@training_phase_spec _ _ sigmoid _ _ backward_step
                base_seed randperm
                backward_step_shape randperm_spec cfg tl st Hok Hst)
      as [st' [ls [E [El [Hl [Ht _]]]]]].
    exists st', ls; eexists; repeat split; try eassumption.
    intros Hex; apply xdiv_not_finite, fold_xadd_not_finite; exact Hex.
Qed.

End NonFiniteLoss.

(** ** The stand-ins meet what is assumed of the library parameters *)

Lemma reversing_permutation_spec (g n : nat) :
  Permutation (fst (reversing_permutation g n)) (seq 0 n).
Proof. simpl; apply Permutation_sym, Permutation_rev. Qed.

Lemma lower_bias_step_shape {F : Type} {SF : Scalar F} (cfg : @Config F)
  (m : @PINN F) (o : nat) (X : list (list F)) (y : list F) :
  pinn_shape m = true -> pinn_shape (fst (lower_bias_step cfg m o X y)) = true.
Proof.
  unfold pinn_shape, lower_bias_step, linear_shape; simpl.
  rewrite length_map; exact (fun H => H).
Qed.

(** C3, the claim as stated, fails.  The second target below is NaN, so
    the loss of the first step of each epoch is NaN; training runs its two
    epochs and returns, with NaN as both entries of the training
    history. *)
Lemma nan_loss_does_not_stop_training :
  let X := to_tensor (F := xfloat) small_X in
  let y_v := map Finite small_y in
  let tl := {| dataset := combine X nan_y; loader_batch_size := 2;
               shuffle := true |} in
  fst (loader_batches counting_base_seed reversing_permutation tl O)
  = [[2; 1]; [0]]%nat /\
  batch_loss xfloat_sigmoid small_config tl constant_pinn [2; 1]%nat
    = Ok NaN /\
  ~ fails (train xfloat_sigmoid lower_bias_step counting_base_seed
             reversing_permutation
             small_config constant_pinn O O X nan_y X y_v) /\
  exists st,
    train xfloat_sigmoid lower_bias_step counting_base_seed
      reversing_permutation
      small_config constant_pinn O O X nan_y X y_v = Ok st /\
    train_losses st = [NaN; NaN] /\
    length (val_losses st) = 2%nat /\
    optimizer st = 4%nat.
Proof.
  cbv zeta; split; [reflexivity | split; [vm_compute; reflexivity | split]].
  - intros [e H]; vm_compute in H; discriminate H.
  - eexists; split; [vm_compute; reflexivity | repeat split].
Qed.

(** ** The statements above at concrete inputs *)

Section Witnesses.

Open Scope Q_scope.

Lemma fit_succeeds_on_constant_columns_witness :
  let X := [[1; 5]; [2; 5]] in
  X <> [] /\ n_features X <> O /\
  exists s, fit X = Ok s /\ nth 1 (scale_ s) 0 == 1.
Proof.
  cbv zeta.
  assert (H1 : [[1; 5]; [2; 5]] <> []) by discriminate.
  assert (H2 : n_features [[1; 5]; [2; 5]] <> O) by (simpl; discriminate).
  split; [exact H1 | split; [exact H2 |]].
  destruct (fit_succeeds_on_constant_columns [[1; 5]; [2; 5]] H1 H2)
    as [s [Hfit [_ Hcols]]].
  exists s; split; [exact Hfit |].
  destruct (Hcols 1%nat ltac:(simpl; lia)) as [_ [_ [_ [_ [_ Hconst]]]]].
  apply Hconst; reflexivity.
Defined.

Lemma inverse_transform_recovers_witness :
  let X := [[1; 5]; [3; 5]; [2; 5]] in
  let s := {| n_features_in_ := 2;
              data_min_ := [1; 5];
              data_max_ := [3; 5];
              data_range_ := [2; 0];
              scale_ := [1 # 2; 1];
              min_ := [-1 # 2; -5] |} in
  fit X = Ok s /\
  nth 0 (data_min_ s) 0 < nth 0 (data_max_ s) 0 /\
  nth 0 (data_min_ s) 0 <= 2 <= nth 0 (data_max_ s) 0 /\
  exists scaled back,
    transform s [[2; 5]] = Ok [scaled] /\
    inverse_transform s [scaled] = Ok [back] /\
    nth 0 back 0 == 2.
Proof.
  cbv zeta.
  set (X := [[1; 5]; [3; 5]; [2; 5]]).
  set (s := {| n_features_in_ := 2;
               data_min_ := [1; 5];
               data_max_ := [3; 5];
               data_range_ := [2; 0];
               scale_ := [1 # 2; 1];
               min_ := [-1 # 2; -5] |}).
  assert (Hfit : fit X = Ok s) by (vm_compute; reflexivity).
  assert (Hlt : nth 0 (data_min_ s) 0 < nth 0 (data_max_ s) 0) by reflexivity.
  assert (Hin : nth 0 (data_min_ s) 0 <= nth 0 [2; 5] 0 <= nth 0 (data_max_ s) 0)
    by (split; simpl; discriminate).
  split; [exact Hfit | split; [exact Hlt | split; [exact Hin |]]].
  destruct (inverse_transform_recovers X s [2; 5] 0 0 Hfit eq_refl
              ltac:(simpl; lia) Hlt Hin ltac:(discriminate))
    as [scaled [back [Ht [Hi [Heq _]]]]].
  exists scaled, back; auto.
Defined.


Lemma split_partitions_indices_witness :
  (2 <= 8)%nat /\
  exists train test,
    split_indices counting_RandomState reversing_permutation O 8 0.25
      (Some 42%nat) = Ok (train, test) /\
    length test = 2%nat /\ length train = 6%nat /\
    (forall i, In i train -> ~ In i test).
Proof.
  assert (H : (2 <= 8)%nat) by lia.
  split; [exact H |].
  destruct (@split_partitions_indices nat counting_RandomState
              reversing_permutation reversing_permutation_spec
              O 8%nat (Some 42%nat) H)
    as [train [test [Es [Hte [Htr [_ [_ [Hdis _]]]]]]]].
  exists train, test; repeat split; try assumption.
  rewrite Htr, Hte; reflexivity.
Defined.

Lemma loss_history_grows_by_one_per_epoch_witness :
  (0 < batch_size (F := Q) small_config)%nat /\
  has_columns 9 small_X = true /\
  pinn_shape (F := Q) constant_pinn = true /\
  exists st,
    train rational_sigmoid lower_bias_step counting_base_seed
      reversing_permutation small_config
      constant_pinn O O small_X small_y small_X small_y = Ok st /\
    length (train_losses st) = 2%nat /\
    length (val_losses st) = 2%nat.
Proof.
  assert (Hbs : (0 < batch_size (F := Q) small_config)%nat) by (simpl; lia).
  assert (HX : small_X <> []) by discriminate.
  split; [exact Hbs | split; [reflexivity | split; [reflexivity |]]].
  destruct (@loss_history_grows_by_one_per_epoch Q Q_scalar rational_sigmoid
              nat nat lower_bias_step counting_base_seed reversing_permutation
              lower_bias_step_shape reversing_permutation_spec
              small_config constant_pinn O O small_X small_y small_X small_y
              Hbs HX eq_refl eq_refl HX eq_refl eq_refl eq_refl)
    as [_ [_ Hret]].
  exact Hret.
Defined.

Lemma validation_leaves_parameters_unchanged_witness :
  loader_ok (F := Q) (small_loader false) = true /\
  shuffle (F := Q) (small_loader false) = false /\
  pinn_shape (model (F := Q) small_state) = true /\
  exists st',
    validation_phase rational_sigmoid counting_base_seed reversing_permutation
      small_config (small_loader false) small_state = Ok st' /\
    model st' = constant_pinn /\
    length (val_losses st') = 1%nat.
Proof.
  repeat (split; [reflexivity |]).
  destruct (@validation_leaves_parameters_unchanged Q Q_scalar rational_sigmoid
              nat nat counting_base_seed reversing_permutation
              reversing_permutation_spec
              small_config (small_loader false) small_state
              eq_refl eq_refl eq_refl)
    as [[st' [ls [E [_ [_ [Hv [Hm _]]]]]]] _].
  exists st'; split; [exact E | split; [exact Hm |]].
  rewrite Hv; reflexivity.
Defined.

Lemma epoch_train_loss_is_mean_of_batch_losses_witness :
  loader_ok (F := Q) (small_loader true) = true /\
  pinn_shape (model (F := Q) small_state) = true /\
  fst (loader_batches counting_base_seed reversing_permutation
         (small_loader (F := Q) true) O)
    = [[2; 1]; [0]]%nat /\
  exists st' ls,
    training_phase rational_sigmoid lower_bias_step counting_base_seed
      reversing_permutation
      small_config (small_loader true) small_state = Ok st' /\
    length ls = 2%nat /\
    train_losses st' = [(fold_left Qplus ls 0) / inject_Z 2].
Proof.
  repeat (split; [reflexivity |]).
  destruct (@epoch_train_loss_is_mean_of_batch_losses Q Q_scalar rational_sigmoid
              nat nat lower_bias_step counting_base_seed reversing_permutation
              lower_bias_step_shape reversing_permutation_spec
              small_config (small_loader true) small_state eq_refl eq_refl)
    as [st' [ls [E [_ [_ [_ [Hl Ht]]]]]]].
  exists st', ls; split; [exact E | split; [exact Hl |]].
  rewrite Ht, Hl; reflexivity.
Defined.

Lemma training_continues_on_nonfinite_loss_witness :
  let X := to_tensor (F := xfloat) small_X in
  (0 < batch_size (F := xfloat) small_config)%nat /\
  has_columns 9 X = true /\
  length nan_y = length X /\
  is_finite (nth 1 nan_y (Finite 0)) = false /\
  exists st,
    train xfloat_sigmoid lower_bias_step counting_base_seed
      reversing_permutation small_config
      constant_pinn O O X nan_y X (map Finite small_y) = Ok st /\
    length (train_losses st) = 2%nat.
Proof.
  cbv zeta.
  assert (Hbs : (0 < batch_size (F := xfloat) small_config)%nat) by (simpl; lia).
  assert (HX : to_tensor (F := xfloat) small_X <> []) by discriminate.
  split; [exact Hbs | repeat (split; [reflexivity |])].
  destruct (@training_continues_on_nonfinite_loss xfloat_sigmoid
              nat nat lower_bias_step counting_base_seed reversing_permutation
              lower_bias_step_shape reversing_permutation_spec
              small_config constant_pinn O O
              (to_tensor small_X) nan_y (to_tensor small_X) (map Finite small_y)
              Hbs HX eq_refl eq_refl HX eq_refl eq_refl eq_refl)
    as [[st [E [Hl _]]] _].
  exists st; split; [exact E | exact Hl].
Defined.

(** With parameters that stay as they are, the entry of an epoch over
    three samples in batches of two is not the loss of the three samples
    taken together: the batch of one sample weighs as much as the batch of
    two. *)
Lemma epoch_loss_differs_from_sample_mean :
  exists st' a c,
    training_phase rational_sigmoid keep_parameters counting_base_seed
      reversing_permutation
      small_config (small_loader true) small_state = Ok st' /\
    train_losses st' = [a] /\
    combined_loss rational_sigmoid constant_pinn small_X small_y
      0.01 0.005 0.002 15 = Ok c /\
    a == 262198225221 # 1058000000 /\
    c == 198200343523 # 793500000 /\
    ~ a == c.
Proof.
  do 3 eexists.
  split; [vm_compute; reflexivity |].
  split; [reflexivity |].
  split; [vm_compute; reflexivity |].
  split; [vm_compute; reflexivity |].
  split; [vm_compute; reflexivity |].
  vm_compute; discriminate.
Qed.

End Witnesses.

(** * Further properties of the code *)

(** ** Column selection *)

Lemma index_of_Some (name : string) (l : list string) (j : nat) :
  index_of name l = Some j -> nth_error l j = Some name.
Proof.
  revert j; induction l as [| x l IH]; simpl; intros j H; [discriminate |].
  destruct (String.eqb_spec name x) as [-> | NE].
  - injection H as <-; reflexivity.
  - destruct (index_of name l) as [k |]; simpl in H; [| discriminate].
    injection H as <-; simpl; apply IH; reflexivity.
Qed.

Lemma index_of_None (name : string) (l : list string) :
  index_of name l = None <-> ~ In name l.
Proof.
  induction l as [| x l IH]; simpl; [tauto |].
  destruct (String.eqb_spec name x) as [-> | NE].
  - split; [discriminate | intros H; exfalso; apply H; left; reflexivity].
  - destruct (index_of name l) as [j |] eqn:E; simpl.
    + split; [discriminate |].
      intros H; exfalso; apply H; right.
      apply index_of_Some, nth_error_In in E; exact E.
    + split; [| reflexivity].
      intros _ [H | H]; [congruence | apply (proj1 IH); auto].
Qed.

Lemma column_index_found (data : DataFrame) (name : string) :
  In name (columns data) ->
  exists j, column_index data name = Ok j /\
            nth_error (columns data) j = Some name.
Proof.
  intros Hin; unfold column_index.
  destruct (index_of name (columns data)) as [j |] eqn:E.
  - exists j; split; [reflexivity | apply index_of_Some; exact E].
  - apply index_of_None in E; contradiction.
Qed.

Lemma mapM_column_index (data : DataFrame) (names : list string) :
  (forall name, In name names -> In name (columns data)) ->
  exists idxs,
    mapM (column_index data) names = Ok idxs /\
    Forall2 (fun name j => nth_error (columns data) j = Some name) names idxs.
Proof.
  induction names as [| name names IH]; intros H; simpl.
  - exists []; split; [reflexivity | constructor].
  - destruct (column_index_found data name (H name (or_introl eq_refl)))
      as [j [Ej Hj]].
    destruct (IH (fun n Hn => H n (or_intror Hn))) as [idxs [Ei Hi]].
    rewrite Ej; simpl; rewrite Ei; simpl.
    exists (j :: idxs); split; [reflexivity | constructor; assumption].
Qed.

Lemma Forall2_nth_error_l {A B : Type} (R : A -> B -> Prop) (la : list A)
  (lb : list B) (k : nat) (a : A) :
  Forall2 R la lb -> nth_error la k = Some a ->
  exists b, nth_error lb k = Some b /\ R a b.
Proof.
  intros H; revert k; induction H as [| x y la lb Hxy _ IH]; intros k Hk.
  - destruct k; discriminate.
  - destruct k as [| k]; simpl in *.
    + injection Hk as <-; exists y; auto.
    + apply IH; exact Hk.
Qed.

(** X1.  Selecting a column the table does not have raises [KeyError]. *)
Theorem select_missing_column_raises (data : DataFrame) (names : list string)
  (name : string) :
  In name names ->
  ~ In name (columns data) ->
  select data names = Raise KeyError.
Proof.
  intros Hin Hmiss; unfold select.
  assert (E : mapM (column_index data) names = Raise KeyError).
  { induction names as [| n names IH]; [contradiction |]; simpl.
    unfold column_index at 1.
    destruct (index_of n (columns data)) as [j |] eqn:Ej; [| reflexivity].
    simpl; destruct Hin as [-> | Hin].
    - apply index_of_Some, nth_error_In in Ej; contradiction.
    - rewrite (IH Hin); reflexivity. }
  rewrite E; reflexivity.
Qed.

(** X2.  When the table has every requested column, the selection
    returns one row per row of the table, each with one entry per
    requested name, in the order of the request: the entry for a name is
    the entry of the row in a column of that name. *)
Theorem select_picks_named_columns (data : DataFrame) (names : list string) :
  (forall name, In name names -> In name (columns data)) ->
  exists X,
    select data names = Ok X /\
    length X = length (values data) /\
    has_columns (length names) X = true /\
    forall i k name,
      (i < length (values data))%nat ->
      nth_error names k = Some name ->
      exists j,
        nth_error (columns data) j = Some name /\
        nth k (nth i X []) 0%Q = nth j (nth i (values data) []) 0%Q.
Proof.
  intros H; destruct (mapM_column_index data names H) as [idxs [E Hidx]].
  unfold select; rewrite E; simpl.
  eexists; split; [reflexivity |].
  split; [apply length_map |].
  split.
  - apply has_columns_map; intros row.
    rewrite length_map; symmetry; apply (Forall2_length Hidx).
  - intros i k name Hi Hk.
    destruct (Forall2_nth_error_l _ names idxs k name Hidx Hk) as [j [Ej Hj]].
    exists j; split; [exact Hj |].
    set (f := fun row : list Q => map (fun j => nth j row 0%Q) idxs).
    rewrite (nth_indep _ [] (f [])) by (rewrite length_map; exact Hi).
    rewrite (map_nth f); unfold f.
    apply nth_error_nth with (d := 0%Q).
    rewrite nth_error_map, Ej; reflexivity.
Qed.

(** ** The scaled values *)

Section ScaledValues.

Open Scope Q_scope.

Lemma fit_returns (X : list (list Q)) :
  X <> [] -> n_features X <> O -> exists s, fit X = Ok s.
Proof.
  intros HX Hn; unfold fit; rewrite (check_array_ok X HX Hn); simpl.
  eexists; reflexivity.
Qed.

Lemma has_columns_nth (c i : nat) (X : list (list Q)) :
  has_columns c X = true -> (i < length X)%nat -> length (nth i X []) = c.
Proof.
  unfold has_columns; rewrite forallb_forall; intros H Hi.
  apply Nat.eqb_eq, H, nth_In; exact Hi.
Qed.



(** Every entry of the scaled array is the distance of the entry to the
    least entry of its column, over the range of the column (or over 1
    when the range is below ten machine epsilons). *)
Lemma fit_transform_entries (X : list (list Q)) :
  X <> [] ->
  n_features X <> O ->
  has_columns (n_features X) X = true ->
  exists s,
    fit X = Ok s /\
    fit_transform X = Ok (s, map (transform_row s) X) /\
    has_columns (n_features X) (map (transform_row s) X) = true /\
    forall i j, (i < length X)%nat -> (j < n_features X)%nat ->
      In (nth j (nth i X []) 0) (column j X) /\
      nth j (nth i (map (transform_row s) X) []) 0
      == (nth j (nth i X []) 0 - column_min (column j X))
         / handle_zero (column_max (column j X) - column_min (column j X)).
Proof.
  intros HX Hn Hc; destruct (fit_returns X HX Hn) as [s Hfit].
  destruct (fit_entries X s Hfit) as [Hnf [Hls [Hlm Hj]]].
  exists s; split; [exact Hfit |].
  assert (Hrow : forall row, In row X -> length (transform_row s row) = n_features X).
  { intros row Hin; unfold transform_row.
    unfold has_columns in Hc; rewrite forallb_forall in Hc.
    apply Hc, Nat.eqb_eq in Hin.
    rewrite !length_zip_with, Hin, Hls, Hlm, !Nat.min_id; reflexivity. }
  split; [| split].
  - unfold fit_transform, transform; rewrite Hfit; simpl bind.
    rewrite (check_array_ok X HX Hn), Hnf, Hc; reflexivity.
  - unfold has_columns; rewrite forallb_forall; intros r Hr.
    apply in_map_iff in Hr; destruct Hr as [row [<- Hin]].
    apply Nat.eqb_eq, Hrow; exact Hin.
  - intros i j Hi Hlt.
    pose proof (has_columns_nth _ i X Hc Hi) as Hlen.
    destruct (Hj j Hlt) as [_ [_ [Esc Emn]]].
    split.
    + unfold column; apply in_map_iff; exists (nth i X []); split;
        [reflexivity | apply nth_In; exact Hi].
    + rewrite (nth_indep _ [] (transform_row s [])) by (rewrite length_map; exact Hi).
      rewrite (map_nth (transform_row s)); unfold transform_row.
      rewrite (nth_zip_with Qplus _ _ j 0 0 0)
        by (rewrite ?length_zip_with, ?Hlen, ?Hls, ?Hlm, ?Nat.min_id; exact Hlt).
      rewrite (nth_zip_with Qmult _ _ j 0 0 0) by (rewrite ?Hlen, ?Hls; exact Hlt).
      rewrite Emn, Esc.
      pose proof (handle_zero_pos
                    (column_max (column j X) - column_min (column j X))).
      field; lra.
Qed.



End ScaledValues.

(** ** What the split does to the rows *)


Lemma flat_map_entry_at_seq {A : Type} (l : list A) :
  flat_map (entry_at l) (seq 0 (length l)) = l.
Proof.
  induction l as [| a l IH]; [reflexivity |].
  simpl length; rewrite <- cons_seq, <- seq_shift; simpl flat_map.
  unfold entry_at at 1; simpl; f_equal.
  rewrite flat_map_concat_map, map_map, <- flat_map_concat_map.
  exact IH.
Qed.

Lemma Forall2_entry_at {A : Type} (l : list A) (idxs : list nat) (xs : list A) :
  Forall2 (fun i x => nth_error l i = Some x) idxs xs ->
  flat_map (entry_at l) idxs = xs.
Proof.
  induction 1 as [| i x idxs xs Hi _ IH]; [reflexivity |].
  simpl; unfold entry_at at 1; rewrite Hi, IH; reflexivity.
Qed.

Lemma nth_error_combine {A B : Type} (la : list A) (lb : list B) (i : nat)
  (a : A) (b : B) :
  nth_error la i = Some a -> nth_error lb i = Some b ->
  nth_error (combine la lb) i = Some (a, b).
Proof.
  revert lb i; induction la as [| x la IH]; intros [| y lb] [| i]; simpl;
    try discriminate.
  - intros Ha Hb; congruence.
  - apply IH.
Qed.

Lemma Forall2_combine_rows {A B : Type} (X : list A) (y : list B)
  (idxs : list nat) (xs : list A) (ys : list B) :
  Forall2 (fun i x => nth_error X i = Some x) idxs xs ->
  Forall2 (fun i v => nth_error y i = Some v) idxs ys ->
  Forall2 (fun i p => nth_error (combine X y) i = Some p) idxs (combine xs ys).
Proof.
  intros HX; revert ys; induction HX as [| i x idxs xs Hi _ IH]; intros ys Hy.
  - inversion Hy; constructor.
  - inversion Hy as [| ? v ? ys' Hv Hys]; subst; simpl; constructor.
    + apply nth_error_combine; assumption.
    + apply IH; exact Hys.
Qed.

Section SplitRows.

Variable NpRng : Type.
Variable RandomState : nat -> NpRng.
Variable permutation : NpRng -> nat -> list nat * NpRng.

Hypothesis permutation_spec :
  forall g n, Permutation (fst (permutation g n)) (seq 0 n).

(** X5.  The split keeps every sample and keeps features and target
    together: the pairs (row of [X_val], entry of [y_val]) followed by the
    pairs (row of [X_train], entry of [y_train]) are a rearrangement of
    the pairs (row of [X], entry of [y]). *)
Theorem split_keeps_samples_paired {A B : Type} (g : NpRng) (X : list A)
  (y : list B) (random_state : option nat) :
  (2 <= length X)%nat ->
  length y = length X ->
  exists sd g',
    train_test_split RandomState permutation g X y 0.25 random_state
      = Ok (sd, g') /\
    length (y_train sd) = length (X_train sd) /\
    length (y_val sd) = length (X_val sd) /\
    Permutation
      (combine (X_val sd) (y_val sd) ++ combine (X_train sd) (y_train sd))
      (combine X y).
Proof.
  intros Hn Hy.
  destruct (train_test_split_returns NpRng RandomState permutation
              permutation_spec g X y random_state Hn Hy)
    as [train [test [sd [g' [Es [Et [F1 [F2 [F3 F4]]]]]]]]].
  destruct (split_indices_permutation NpRng RandomState permutation
              permutation_spec g (length X) random_state Hn)
    as [train' [test' [Es' [Hperm _]]]].
  rewrite Es in Es'; injection Es' as <- <-.
  exists sd, g'; split; [exact Et |].
  split; [rewrite <- (Forall2_length F1), <- (Forall2_length F3); reflexivity |].
  split; [rewrite <- (Forall2_length F2), <- (Forall2_length F4); reflexivity |].
  pose proof (Forall2_combine_rows X y _ _ _ F1 F3) as Gtr.
  pose proof (Forall2_combine_rows X y _ _ _ F2 F4) as Gte.
  apply Forall2_entry_at in Gtr, Gte.
  rewrite <- Gtr, <- Gte, <- flat_map_app.
  assert (Hp : Permutation (test ++ train) (seq 0 (length (combine X y))))
    by (rewrite length_combine, Hy, Nat.min_id; exact Hperm).
  apply (Permutation_flat_map (entry_at (combine X y))) in Hp.
  rewrite flat_map_entry_at_seq in Hp; exact Hp.
Qed.

End SplitRows.

(** X6.  Fewer than two samples cannot be split: the training part would
    be empty and [ValueError] is raised. *)
Theorem split_too_few_samples_raises {NpRng A B : Type}
  (RandomState : nat -> NpRng)
  (permutation : NpRng -> nat -> list nat * NpRng)
  (g : NpRng) (X : list A) (y : list B) (random_state : option nat) :
  (length X < 2)%nat ->
  train_test_split RandomState permutation g X y 0.25 random_state
    = Raise ValueError.
Proof.
  intros Hn; unfold train_test_split.
  destruct (negb (length X =? length y)%nat); [reflexivity |].
  assert (E : validate_shuffle_split (length X) 0.25 = Raise ValueError).
  { destruct (length X) as [| [| n]]; [reflexivity | reflexivity | lia]. }
  unfold split_indices; rewrite E; reflexivity.
Qed.

(** ** The forward pass, row by row *)

Section ForwardRows.

Context {F : Type} {SF : Scalar F}.
Variable sigmoid : F -> F.

Lemma has_columns_app (c : nat) (X1 X2 : list (list F)) :
  has_columns c (X1 ++ X2) = has_columns c X1 && has_columns c X2.
Proof. apply forallb_app. Qed.

Lemma apply_linear_raises (L : @Linear F) (X : list (list F)) (e : exn) :
  apply_linear L X = Raise e -> e = RuntimeError.
Proof.
  unfold apply_linear; destruct (has_columns (in_features L) X); congruence.
Qed.

Lemma apply_linear_app (L : @Linear F) (X1 X2 : list (list F)) :
  apply_linear L (X1 ++ X2)
  = (a <- apply_linear L X1 ;; b <- apply_linear L X2 ;; Ok (a ++ b)).
Proof.
  unfold apply_linear; rewrite has_columns_app.
  destruct (has_columns (in_features L) X1),
           (has_columns (in_features L) X2); simpl; try reflexivity.
  rewrite map_app; reflexivity.
Qed.

Lemma activation_app (X1 X2 : list (list F)) :
  activation sigmoid (X1 ++ X2) = activation sigmoid X1 ++ activation sigmoid X2.
Proof. apply map_app. Qed.

Ltac runtime_error H := apply apply_linear_raises in H; subst.

(** X7.  The network treats the rows of a batch one by one: the
    predictions for two batches put together are the predictions for the
    first followed by those for the second, and the joint batch is
    rejected exactly when one of the two is. *)
Theorem forward_app (m : @PINN F) (X1 X2 : list (list F)) :
  forward sigmoid m (X1 ++ X2)
  = (o1 <- forward sigmoid m X1 ;; o2 <- forward sigmoid m X2 ;; Ok (o1 ++ o2)).
Proof.
  unfold forward; rewrite apply_linear_app.
  destruct (apply_linear (hidden1 m) X1) as [a1 | e1] eqn:E1; simpl;
    [| reflexivity].
  destruct (apply_linear (hidden1 m) X2) as [a2 | e2] eqn:E2; simpl.
  2: { runtime_error E2.
       destruct (apply_linear (hidden2 m) (activation sigmoid a1))
         as [b1 | e] eqn:E; simpl; [| runtime_error E; reflexivity].
       destruct (apply_linear (output_layer m) (activation sigmoid b1))
         as [c1 | e] eqn:E'; simpl; [reflexivity | runtime_error E'; reflexivity]. }
  rewrite activation_app, apply_linear_app.
  destruct (apply_linear (hidden2 m) (activation sigmoid a1))
    as [b1 | e] eqn:E3; simpl; [| reflexivity].
  destruct (apply_linear (hidden2 m) (activation sigmoid a2))
    as [b2 | e] eqn:E4; simpl.
  2: { runtime_error E4.
       destruct (apply_linear (output_layer m) (activation sigmoid b1))
         as [c1 | e] eqn:E'; simpl; [reflexivity | runtime_error E'; reflexivity]. }
  rewrite activation_app, apply_linear_app.
  destruct (apply_linear (output_layer m) (activation sigmoid b1))
    as [c1 | e] eqn:E5; simpl; [| reflexivity].
  destruct (apply_linear (output_layer m) (activation sigmoid b2))
    as [c2 | e] eqn:E6; simpl; [| reflexivity].
  unfold column; rewrite map_app; reflexivity.
Qed.

(** X8.  A network of the shapes of [PINN.__init__] returns one
    prediction per row when every row has nine entries, and raises
    [RuntimeError] when some row has not. *)
Theorem forward_needs_nine_columns (m : @PINN F) (X : list (list F)) :
  pinn_shape m = true ->
  (has_columns 9 X = true ->
   exists outputs,
     forward sigmoid m X = Ok outputs /\ length outputs = length X) /\
  (has_columns 9 X = false -> forward sigmoid m X = Raise RuntimeError).
Proof.
  intros Hm; split; [apply forward_total; exact Hm |].
  intros HX; unfold forward, apply_linear.
  unfold pinn_shape in Hm; rewrite !andb_true_iff in Hm.
  destruct Hm as [[H1 _] _].
  destruct (linear_shape_lengths 9 12 (hidden1 m) H1) as [-> _].
  rewrite HX; reflexivity.
Qed.

End ForwardRows.

(** ** The physics residual and shapes *)

Section ResidualShapes.

Context {F : Type} {SF : Scalar F}.

(** The residual is taken between the predictions and the expected
    values of the rows, as one element-wise difference. *)
Lemma physics_loss_residual (inputs : list (list F)) (outputs : list F)
  (a b g T : F) :
  has_columns 9 inputs = true ->
  physics_loss inputs outputs a b g T
  = (residual <- elementwise fsub outputs (map (expected_energy a b g T) inputs) ;;
     Ok (mean (map square residual))).
Proof.
  intros Hc; unfold physics_loss; rewrite Hc; simpl negb; cbv iota.
  unfold column, scale, sub_scalar.
  rewrite elementwise_same_length by (rewrite !length_map; reflexivity).
  simpl bind; rewrite zip_with_map_map.
  rewrite elementwise_same_length by (rewrite !length_map; reflexivity).
  simpl bind; rewrite zip_with_map_map, !map_map.
  rewrite elementwise_same_length by (rewrite !length_map; reflexivity).
  simpl bind; rewrite zip_with_map_map.
  rewrite elementwise_same_length by (rewrite !length_map; reflexivity).
  simpl bind; rewrite zip_with_map_map.
  rewrite elementwise_same_length by (rewrite !length_map; reflexivity).
  simpl bind; rewrite zip_with_map_map.
  reflexivity.
Qed.

Lemma elementwise_mismatch (op : F -> F -> F) (x y : list F) :
  length x <> length y -> length x <> 1%nat -> length y <> 1%nat ->
  elementwise op x y = Raise RuntimeError.
Proof.
  intros Hxy Hx Hy; unfold elementwise.
  destruct (Nat.eqb_spec (length x) (length y)) as [E | _]; [contradiction |].
  destruct x as [| x0 [| x1 x]], y as [| y0 [| y1 y]]; simpl in *;
    try reflexivity; congruence.
Qed.

(** X9.  The physics residual does not read the channels of total
    nitrogen, humidity and rainfall: overwriting them in every row leaves
    the loss as it is. *)
Theorem physics_loss_ignores_unused_channels (inputs : list (list F))
  (outputs : list F) (a b g T v : F) :
  has_columns 9 inputs = true ->
  physics_loss (map (overwrite_unused v) inputs) outputs a b g T
  = physics_loss inputs outputs a b g T.
Proof.
  intros Hc.
  assert (Hc' : has_columns 9 (map (overwrite_unused v) inputs) = true)
    by (apply has_columns_map; reflexivity).
  rewrite !physics_loss_residual by assumption.
  rewrite map_map; reflexivity.
Qed.

(** X10.  Predictions whose number differs from the number of rows are
    rejected with [RuntimeError], unless one of the two numbers is 1. *)
Theorem physics_loss_length_mismatch_raises (inputs : list (list F))
  (outputs : list F) (a b g T : F) :
  has_columns 9 inputs = true ->
  length outputs <> length inputs ->
  length outputs <> 1%nat ->
  length inputs <> 1%nat ->
  physics_loss inputs outputs a b g T = Raise RuntimeError.
Proof.
  intros Hc Hne Ho Hi.
  rewrite physics_loss_residual by exact Hc.
  rewrite elementwise_mismatch by (rewrite ?length_map; assumption).
  reflexivity.
Qed.

(** X11.  A single prediction is not rejected against a batch of
    several rows: it is compared with the expected value of every row. *)
Theorem physics_loss_broadcasts_single_prediction (inputs : list (list F))
  (o a b g T : F) :
  has_columns 9 inputs = true ->
  physics_loss inputs [o] a b g T
  = Ok (mean (map (fun row => square (fsub o (expected_energy a b g T row)))
                inputs)).
Proof.
  intros Hc; rewrite physics_loss_residual by exact Hc.
  unfold elementwise; rewrite length_map; simpl length.
  destruct (Nat.eqb_spec 1 (length inputs)) as [E | NE]; simpl.
  - destruct inputs as [| row [| row' inputs]]; simpl in E; try discriminate.
    reflexivity.
  - rewrite !map_map; reflexivity.
Qed.

End ResidualShapes.

(** ** When the combined loss vanishes *)

Section VanishingLoss.

Open Scope Q_scope.

Lemma tsum_zero_inv (l : list Q) :
  Forall (fun x => 0 <= x) l -> tsum l == 0 -> Forall (fun x => x == 0) l.
Proof.
  induction 1 as [| x l Hx Hl IH]; intros Hs; constructor.
  - rewrite tsum_cons in Hs; pose proof (tsum_nonneg l Hl); lra.
  - apply IH; rewrite tsum_cons in Hs; pose proof (tsum_nonneg l Hl); lra.
Qed.

Lemma tsum_of_mean (l : list Q) :
  l <> [] -> tsum l == mean l * of_nat (length l).
Proof.
  intros Hl; unfold mean; simpl fdiv.
  assert (H : 0 < of_nat (F := Q) (length l))
    by (apply of_nat_pos; destruct l; [congruence | simpl; lia]).
  change (of_nat (F := Q) (length l)) with (inject_Z (Z.of_nat (length l))) in *.
  generalize dependent (inject_Z (Z.of_nat (length l))); intros n Hn.
  generalize (tsum l); intros t.
  field; lra.
Qed.

Lemma mean_zero_inv (l : list Q) :
  l <> [] -> Forall (fun x => 0 <= x) l -> mean l == 0 ->
  Forall (fun x => x == 0) l.
Proof.
  intros Hl Hpos Hm; apply tsum_zero_inv; [exact Hpos |].
  rewrite (tsum_of_mean l Hl), Hm; lra.
Qed.

Lemma Forall_zip_with_Forall2 {A B : Type} (P : Q -> Prop) (f : A -> B -> Q)
  (a : list A) (b : list B) :
  length a = length b ->
  (Forall P (zip_with f a b) <-> Forall2 (fun x y => P (f x y)) a b).
Proof.
  unfold zip_with; revert b; induction a as [| x a IH]; intros [| y b] Hlen;
    simpl in *; try discriminate.
  - split; constructor.
  - injection Hlen as Hlen; split; intros H; inversion H; subst; constructor;
      try assumption; apply (IH b Hlen); assumption.
Qed.

Lemma square_zero (x : Q) : square x == 0 <-> x == 0.
Proof.
  unfold square; simpl; split; intros H.
  - destruct (Qmult_integral _ _ H); assumption.
  - rewrite H; reflexivity.
Qed.

Lemma square_diff_zero (x y : Q) : square (fsub x y) == 0 <-> x == y.
Proof.
  rewrite square_zero; simpl; split; intros H; lra.
Qed.

Lemma Forall2_flip_impl {A B : Type} (R : A -> B -> Prop) (S : B -> A -> Prop)
  (a : list A) (b : list B) :
  (forall x y, R x y -> S y x) -> Forall2 R a b -> Forall2 S b a.
Proof. intros H; induction 1; constructor; auto. Qed.

Lemma Forall2_map_r_iff {A B C : Type} (R : A -> C -> Prop) (f : B -> C)
  (a : list A) (b : list B) :
  Forall2 R a (map f b) <-> Forall2 (fun x y => R x (f y)) a b.
Proof.
  revert b; induction a as [| x a IH]; intros [| y b]; simpl; split; intros H;
    inversion H; subst; constructor; try assumption; apply IH; assumption.
Qed.

(** X12.  On a batch that is not empty the combined loss is 0 exactly
    when every prediction equals its target and equals the expected value
    of the physics residual for its row. *)
Theorem combined_loss_zero_iff (sigmoid : Q -> Q) (m : @PINN Q)
  (inputs : list (list Q)) (targets : list Q) (a b g T : Q) :
  pinn_shape m = true ->
  has_columns 9 inputs = true ->
  length targets = length inputs ->
  inputs <> [] ->
  exists predicted total,
    forward sigmoid m inputs = Ok predicted /\
    combined_loss sigmoid m inputs targets a b g T = Ok total /\
    (total == 0 <->
     Forall2 Qeq predicted targets /\
     Forall2 Qeq predicted (map (expected_energy a b g T) inputs)).
Proof.
  intros Hm HX Hlen Hne.
  destruct (combined_loss_total sigmoid m inputs targets a b g T Hm HX Hlen)
    as [predicted [phys [Ef [Hout [Ep Ec]]]]].
  exists predicted; eexists; split; [exact Ef | split; [exact Ec |]].
  rewrite physics_loss_rowwise in Ep by assumption.
  set (d := zip_with (fun t p => square (fsub t p)) targets predicted).
  set (r := zip_with (fun p row => square (fsub p (expected_energy a b g T row)))
              predicted inputs) in *.
  assert (Hphys : phys = mean r) by congruence.
  rewrite Hphys; clear Ep Hphys.
  assert (Hd : Forall (fun x => 0 <= x) d)
    by (apply Forall_zip_with; intros; apply square_nonneg).
  assert (Hr : Forall (fun x => 0 <= x) r)
    by (apply Forall_zip_with; intros; apply square_nonneg).
  assert (Hdn : d <> []).
  { intros E; apply (f_equal (@length Q)) in E; unfold d in E.
    rewrite length_zip_with, Hlen, Hout, Nat.min_id in E.
    destruct inputs; [congruence | discriminate]. }
  assert (Hrn : r <> []).
  { intros E; apply (f_equal (@length Q)) in E; unfold r in E.
    rewrite length_zip_with, Hout, Nat.min_id in E.
    destruct inputs; [congruence | discriminate]. }
  pose proof (mean_nonneg d Hd) as Md; pose proof (mean_nonneg r Hr) as Mr.
  assert (Ed : Forall (fun x => x == 0) d <-> Forall2 Qeq predicted targets).
  { unfold d; rewrite Forall_zip_with_Forall2 by congruence; split; intros H.
    - eapply Forall2_flip_impl; [| exact H].
      intros t p Hz; apply (proj1 (square_diff_zero t p)) in Hz; lra.
    - eapply Forall2_flip_impl; [| exact H].
      intros p t Hz; apply (proj2 (square_diff_zero t p)); lra. }
  assert (Er : Forall (fun x => x == 0) r
               <-> Forall2 Qeq predicted (map (expected_energy a b g T) inputs)).
  { unfold r; rewrite Forall_zip_with_Forall2 by congruence.
    rewrite Forall2_map_r_iff; split; intros H;
      (eapply Forall2_impl; [| exact H]); intros p row Hz; simpl in *.
    - apply (proj1 (square_diff_zero _ _)) in Hz; exact Hz.
    - apply (proj2 (square_diff_zero _ _)); exact Hz. }
  change (fadd (mean d) (mean r)) with (mean d + mean r); split.
  - intros Hz; split.
    + apply Ed, mean_zero_inv; [exact Hdn | exact Hd | lra].
    + apply Er, mean_zero_inv; [exact Hrn | exact Hr | lra].
  - intros [H1 H2]; apply Ed in H1; apply Er in H2.
    rewrite (mean_zero d H1), (mean_zero r H2); lra.
Qed.

End VanishingLoss.

(** ** What a pass over a loader covers *)

Lemma concat_batch_sampler (bs : nat) (sampler batch : list nat) :
  concat (batch_sampler bs batch sampler) = batch ++ sampler.
Proof.
  revert batch; induction sampler as [| idx rest IH]; intros batch; simpl.
  - destruct batch; reflexivity.
  - destruct (length (batch ++ [idx]) =? bs)%nat; simpl; rewrite IH; simpl;
      rewrite <- app_assoc; reflexivity.
Qed.

Lemma batch_sizes_bounds (bs n : nat) :
  (0 < bs)%nat -> Forall (fun k => 1 <= k <= bs)%nat (batch_sizes bs n).
Proof.
  intros Hbs; unfold batch_sizes; apply Forall_app; split.
  - apply Forall_forall; intros k Hk; apply repeat_spec in Hk; lia.
  - pose proof (Nat.mod_upper_bound n bs ltac:(lia)).
    destruct (Nat.eqb_spec (n mod bs) 0); constructor; [lia | constructor].
Qed.

Section Passes.

Context {F : Type}.
Variable TorchRng : Type.
Variable base_seed : TorchRng -> Z * TorchRng.
Variable randperm : TorchRng -> nat -> list nat * TorchRng.

Hypothesis randperm_spec :
  forall g n, Permutation (fst (randperm g n)) (seq 0 n).

(** X13.  One pass over a loader takes every sample of its dataset
    exactly once: the batches, put end to end, are a rearrangement of the
    indices of the dataset, and the indices in their order when the loader
    does not shuffle. *)
Theorem pass_visits_every_sample_once (dl : @DataLoader F) (g : TorchRng) :
  Permutation (concat (fst (loader_batches base_seed randperm dl g)))
    (seq 0 (length (dataset dl))) /\
  (shuffle dl = false ->
   concat (fst (loader_batches base_seed randperm dl g))
   = seq 0 (length (dataset dl))).
Proof.
  unfold loader_batches; cbv zeta; destruct (shuffle dl).
  - pose proof (randperm_spec (snd (base_seed g)) (length (dataset dl))) as Hp.
    destruct (randperm (snd (base_seed g)) (length (dataset dl))) as [perm g'];
      simpl in *.
    rewrite concat_batch_sampler; simpl; split; [exact Hp | discriminate].
  - simpl; rewrite concat_batch_sampler; simpl; split; [apply Permutation_refl | auto].
Qed.

(** X14.  No batch of a pass is empty and none has more than
    [batch_size] samples. *)
Theorem batches_are_nonempty_and_bounded (dl : @DataLoader F) (g : TorchRng) :
  (0 < loader_batch_size dl)%nat ->
  Forall (fun b => 1 <= length b <= loader_batch_size dl)%nat
    (fst (loader_batches base_seed randperm dl g)).
Proof.
  intros Hbs.
  assert (Hgen : forall sampler,
             Forall (fun b => 1 <= length b <= loader_batch_size dl)%nat
               (batch_sampler (loader_batch_size dl) [] sampler)).
  { intros sampler.
    pose proof (batch_sizes_bounds (loader_batch_size dl) (length sampler) Hbs)
      as Hb.
    pose proof (batch_sampler_sizes (loader_batch_size dl) sampler [] Hbs)
      as Hs.
    simpl in Hs; rewrite <- Hs, Forall_map in Hb; exact Hb. }
  unfold loader_batches; cbv zeta; destruct (shuffle dl).
  - destruct (randperm (snd (base_seed g)) (length (dataset dl))) as [perm g'];
      apply Hgen.
  - apply Hgen.
Qed.

End Passes.

(** ** The epoch *)

Section Epochs.

Context {F : Type} {SF : Scalar F}.
Variable sigmoid : F -> F.
Variable OptState : Type.
Variable TorchRng : Type.
Variable backward_step :
  @Config F -> @PINN F -> OptState -> list (list F) -> list F
  -> @PINN F * OptState.
Variable base_seed : TorchRng -> Z * TorchRng.
Variable randperm : TorchRng -> nat -> list nat * TorchRng.

Lemma eval_batches_inv (cfg : @Config F) (dl : @DataLoader F)
  (batches : list (list nat)) (m : @PINN F) (acc s : F) :
  eval_batches sigmoid cfg dl batches m acc = Ok s ->
  exists ls,
    mapM (batch_loss sigmoid cfg dl m) batches = Ok ls /\
    s = fold_left fadd ls acc.
Proof.
  revert acc; induction batches as [| idxs rest IH]; intros acc H; simpl in H.
  - injection H as <-; exists []; auto.
  - simpl; unfold batch_loss at 1.
    destruct (fetch dl idxs) as [[bX bY] | e]; simpl in *; [| discriminate].
    destruct (combined_loss sigmoid m bX bY (alpha cfg) (beta cfg) (gamma cfg)
                (T_ref cfg)) as [loss | e]; simpl in *; [| discriminate].
    destruct (IH _ H) as [ls [El Es]].
    exists (loss :: ls); rewrite El; simpl; auto.
Qed.

(** X16.  In an epoch that completes, the validation entry is the sum
    of the combined losses of the validation batches under the parameters
    the training phase of the same epoch has left, over [len(val_loader)];
    validation hands these parameters and the optimizer state on
    unchanged. *)
Theorem validation_uses_updated_parameters (cfg : @Config F)
  (tl vl : @DataLoader F) (st st2 : @TrainState F OptState TorchRng) :
  train_epoch sigmoid backward_step base_seed randperm cfg tl vl st = Ok st2 ->
  exists st1 ls,
    training_phase sigmoid backward_step base_seed randperm cfg tl st
    = Ok st1 /\
    model st2 = model st1 /\
    optimizer st2 = optimizer st1 /\
    mapM (batch_loss sigmoid cfg vl (model st1))
      (fst (loader_batches base_seed randperm vl (torch_rng st1))) = Ok ls /\
    val_losses st2
    = val_losses st ++ [fdiv (tsum ls) (of_nat (loader_len vl))].
Proof.
  unfold train_epoch; intros H; apply bind_ok in H; destruct H as [st1 [H1 H2]].
  exists st1.
  destruct (@training_phase_appends _ _ sigmoid _ _ backward_step
              base_seed randperm
              cfg tl st st1 H1)
    as [a [_ Hv]].
  unfold validation_phase in H2.
  destruct (loader_batches base_seed randperm vl (torch_rng st1))
    as [batches g'] eqn:Eb.
  destruct (eval_batches sigmoid cfg vl batches (model st1) zero)
    as [s | e] eqn:Ee; simpl in H2; [| discriminate].
  destruct (eval_batches_inv cfg vl batches (model st1) zero s Ee) as [ls [El Es]].
  unfold div_len in H2.
  destruct (loader_len vl =? 0)%nat; simpl in H2; [discriminate |].
  injection H2 as <-; simpl.
  exists ls; split; [exact H1 |].
  split; [reflexivity | split; [reflexivity | split; [exact El |]]].
  rewrite Hv, Es; reflexivity.
Qed.

Hypothesis backward_step_shape :
  forall cfg m o X y,
    pinn_shape m = true -> pinn_shape (fst (backward_step cfg m o X y)) = true.

Hypothesis randperm_spec :
  forall g n, Permutation (fst (randperm g n)) (seq 0 n).

(** X15.  With an empty validation set the first epoch trains and then
    divides the validation loss by [len(val_loader)] = 0: training raises
    [ZeroDivisionError]. *)
Theorem empty_validation_set_raises (cfg : @Config F) (m0 : @PINN F)
  (o0 : OptState) (g0 : TorchRng) (X_tr : list (list F)) (y_tr : list F)
  (y_v : list F) :
  (0 < batch_size cfg)%nat ->
  (0 < epochs cfg)%nat ->
  X_tr <> [] -> length y_tr = length X_tr -> has_columns 9 X_tr = true ->
  pinn_shape m0 = true ->
  train sigmoid backward_step base_seed randperm cfg m0 o0 g0 X_tr y_tr [] y_v
    = Raise ZeroDivisionError.
Proof.
  intros Hbs Hep Ht1 Ht2 Ht3 Hm.
  destruct (data_loader_ok X_tr y_tr (batch_size cfg) true Hbs Ht1 Ht2 Ht3)
    as [tl [Etl [Htl _]]].
  unfold train; rewrite Etl; simpl bind.
  unfold data_loader at 1.
  destruct (Nat.eqb_spec (batch_size cfg) 0) as [E | _]; [lia |].
  simpl andb; cbv iota; simpl bind.
  destruct (epochs cfg) as [| k]; [lia |]; simpl train_loop.
  match goal with
  | |- context [train_epoch _ _ _ _ _ _ ?vl ?st0] =>
      destruct (@training_phase_spec _ _ sigmoid _ _ backward_step
                  base_seed randperm
                  backward_step_shape randperm_spec cfg tl st0 Htl Hm)
        as [st1 [ls [E1 _]]];
      assert (E : train_epoch sigmoid backward_step base_seed randperm
                    cfg tl vl st0
                  = Raise ZeroDivisionError)
  end.
  { unfold train_epoch; rewrite E1; simpl bind.
    unfold validation_phase, loader_batches; simpl.
    unfold div_len, loader_len; simpl.
    rewrite Nat.div_small by lia; reflexivity. }
  rewrite E; reflexivity.
Qed.

End Epochs.

(** ** From the table to the trained model *)

Lemma select_returns (data : DataFrame) (names : list string) :
  (forall name, In name names -> In name (columns data)) ->
  exists X,
    select data names = Ok X /\
    length X = length (values data) /\
    has_columns (length names) X = true.
Proof.
  intros H; destruct (mapM_column_index data names H) as [idxs [E Hidx]].
  unfold select; rewrite E; simpl.
  eexists; split; [reflexivity | split; [apply length_map |]].
  apply has_columns_map; intros row.
  rewrite length_map; symmetry; apply (Forall2_length Hidx).
Qed.

Lemma n_features_of_columns (c : nat) (X : list (list Q)) :
  X <> [] -> has_columns c X = true -> n_features X = c.
Proof.
  destruct X as [| row X]; [congruence |]; simpl; intros _ H.
  apply andb_true_iff in H; destruct H as [H _]; apply Nat.eqb_eq; exact H.
Qed.

Lemma fit_transform_returns (c : nat) (X : list (list Q)) :
  X <> [] -> c <> O -> has_columns c X = true ->
  exists s X',
    fit_transform X = Ok (s, X') /\
    length X' = length X /\
    has_columns c X' = true.
Proof.
  intros HX Hc Hcols.
  pose proof (n_features_of_columns c X HX Hcols) as Hn.
  destruct (fit_transform_entries X HX ltac:(lia) ltac:(congruence))
    as [s [_ [E [Hc' _]]]].
  exists s, (map (transform_row s) X).
  split; [exact E | split; [apply length_map | rewrite <- Hn; exact Hc']].
Qed.

Lemma has_columns_selected {A : Type} (c : nat) (X : list (list A))
  (idxs : list nat) (rows : list (list A)) :
  forallb (fun row => (length row =? c)%nat) X = true ->
  Forall2 (fun i x => nth_error X i = Some x) idxs rows ->
  forallb (fun row => (length row =? c)%nat) rows = true.
Proof.
  intros HX; rewrite forallb_forall in HX.
  induction 1 as [| i x idxs rows Hi _ IH]; simpl; [reflexivity |].
  rewrite IH, andb_true_r; apply HX, (nth_error_In _ _ Hi).
Qed.

Section Pipeline.

Context {F : Type} {SF : Scalar F}.
Variable NpRng : Type.
Variable RandomState : nat -> NpRng.
Variable permutation : NpRng -> nat -> list nat * NpRng.
Variable sigmoid : F -> F.
Variable OptState : Type.
Variable TorchRng : Type.
Variable backward_step :
  @Config F -> @PINN F -> OptState -> list (list F) -> list F
  -> @PINN F * OptState.
Variable base_seed : TorchRng -> Z * TorchRng.
Variable randperm : TorchRng -> nat -> list nat * TorchRng.

Hypothesis permutation_spec :
  forall g n, Permutation (fst (permutation g n)) (seq 0 n).

Hypothesis backward_step_shape :
  forall cfg m o X y,
    pinn_shape m = true -> pinn_shape (fst (backward_step cfg m o X y)) = true.

Hypothesis randperm_spec :
  forall g n, Permutation (fst (randperm g n)) (seq 0 n).

Lemma has_columns_to_tensor (c : nat) (X : list (list Q)) :
  has_columns c X = true -> has_columns c (to_tensor (F := F) X) = true.
Proof.
  unfold has_columns, to_tensor; rewrite !forallb_forall; intros H r Hr.
  apply in_map_iff in Hr; destruct Hr as [row [<- Hrow]].
  rewrite length_map; apply H; exact Hrow.
Qed.

(** On a table that has the ten columns and at least two rows, lines
    24-57 return tensors of nine columns, the training part with
    floor(3N/4) and the validation part with ceil(N/4) samples. *)
Lemma prepare_returns (ambient : NpRng) (data : DataFrame) :
  (forall name, In name (target :: features) -> In name (columns data)) ->
  (2 <= length (values data))%nat ->
  let n := length (values data) in
  let n_test := Z.to_nat (Qceiling (0.25 * inject_Z (Z.of_nat n))) in
  exists prep g',
    prepare (F := F) RandomState permutation ambient data = Ok (prep, g') /\
    has_columns 9 (X_train (tensors prep)) = true /\
    has_columns 9 (X_val (tensors prep)) = true /\
    length (X_train (tensors prep)) = (n - n_test)%nat /\
    length (y_train (tensors prep)) = (n - n_test)%nat /\
    length (X_val (tensors prep)) = n_test /\
    length (y_val (tensors prep)) = n_test.
Proof.
  intros Hcols Hn n n_test.
  destruct (select_returns data features
              (fun name H => Hcols name (or_intror H))) as [X [EX [LX CX]]].
  destruct (select_returns data [target]
              (fun name H => Hcols name
                               match H with
                               | or_introl E => or_introl E
                               | or_intror E => match E with end
                               end)) as [y [Ey [Ly Cy]]].
  assert (HX : X <> []) by (intros E; rewrite E in LX; simpl in LX; lia).
  assert (Hy : y <> []) by (intros E; rewrite E in Ly; simpl in Ly; lia).
  destruct (fit_transform_returns 9 X HX ltac:(lia) CX) as [sX [Xs [EsX [LXs CXs]]]].
  destruct (fit_transform_returns 1 y Hy ltac:(lia) Cy) as [sy [ys [Esy [Lys Cys]]]].
  assert (Hn' : (2 <= length Xs)%nat) by lia.
  assert (Hlen : length ys = length Xs) by lia.
  destruct (train_test_split_returns NpRng RandomState permutation
              permutation_spec (RandomState 42) Xs ys (Some 42%nat) Hn' Hlen)
    as [train [test [sd [g' [Es [Et [F1 [F2 [F3 F4]]]]]]]]].
  destruct (split_indices_permutation NpRng RandomState permutation
              permutation_spec (RandomState 42) (length Xs) (Some 42%nat) Hn')
    as [train' [test' [Es' [_ [Lte Ltr]]]]].
  rewrite Es in Es'; injection Es' as <- <-.
  rewrite LXs, LX in Lte, Ltr; fold n in Lte, Ltr; fold n_test in Lte, Ltr.
  unfold prepare; rewrite EX; simpl bind; rewrite Ey; simpl bind.
  rewrite EsX; simpl bind; rewrite Esy; simpl bind.
  rewrite Et; simpl bind.
  do 2 eexists; split; [reflexivity |]; simpl.
  split; [apply has_columns_to_tensor, (has_columns_selected 9 Xs train);
          [exact CXs | exact F1] |].
  split; [apply has_columns_to_tensor, (has_columns_selected 9 Xs test);
          [exact CXs | exact F2] |].
  unfold to_tensor, column; rewrite !length_map.
  rewrite <- (Forall2_length F1), <- (Forall2_length F2),
          <- (Forall2_length F3), <- (Forall2_length F4).
  auto.
Qed.

(** X17.  On a table that has the nine feature columns and the target
    column and at least two rows, lines 24-141 run to the end: scaling,
    splitting and training return, the training part holds
    N - ceil(N/4) samples, the validation part ceil(N/4), and each history
    holds one entry per epoch. *)
Theorem training_run_returns (cfg : @Config F) (m0 : @PINN F) (o0 : OptState)
  (g0 : TorchRng) (ambient : NpRng) (data : DataFrame) :
  (forall name, In name (target :: features) -> In name (columns data)) ->
  (2 <= length (values data))%nat ->
  (0 < batch_size cfg)%nat ->
  pinn_shape m0 = true ->
  let n := length (values data) in
  let n_test := Z.to_nat (Qceiling (0.25 * inject_Z (Z.of_nat n))) in
  exists prep st,
    training_run RandomState permutation sigmoid backward_step base_seed
      randperm
      cfg m0 o0 g0 ambient data = Ok (prep, st) /\
    length (X_train (tensors prep)) = (n - n_test)%nat /\
    length (X_val (tensors prep)) = n_test /\
    length (train_losses st) = epochs cfg /\
    length (val_losses st) = epochs cfg.
Proof.
  intros Hcols Hn Hbs Hm n n_test.
  destruct (prepare_returns ambient data Hcols Hn)
    as [prep [g' [Ep [C1 [C2 [L1 [L2 [L3 L4]]]]]]]].
  fold n in L1, L2, L3, L4; fold n_test in L1, L2, L3, L4.
  destruct (split_sizes n) as [_ [Hlt _]]; specialize (Hlt Hn).
  fold n_test in Hlt.
  assert (N1 : X_train (tensors prep) <> [])
    by (intros E; rewrite E in L1; simpl in L1; lia).
  assert (N2 : X_val (tensors prep) <> [])
    by (intros E; rewrite E in L3; simpl in L3; lia).
  destruct (@train_total _ _ sigmoid _ _ backward_step base_seed randperm
              backward_step_shape randperm_spec cfg m0 o0 g0
              (X_train (tensors prep)) (y_train (tensors prep))
              (X_val (tensors prep)) (y_val (tensors prep))
              Hbs N1 ltac:(lia) C1 N2 ltac:(lia) C2 Hm)
    as [st [Et [Ht Hv]]].
  exists prep, st; unfold training_run; rewrite Ep; simpl bind.
  rewrite Et; simpl bind; auto.
Qed.

End Pipeline.

(** ** The metrics *)

Section MetricFacts.

Open Scope Q_scope.

Lemma column_as_column (y : list Q) : column 0 (as_column y) = y.
Proof.
  unfold column, as_column; rewrite map_map; simpl; apply map_id.
Qed.

Lemma check_array_as_column (y : list Q) :
  y <> [] -> check_array (as_column y) = Ok tt.
Proof. destruct y; [congruence | reflexivity]. Qed.

Lemma check_reg_targets_columns (t p : list Q) :
  t <> [] -> length t = length p ->
  check_reg_targets (as_column t) (as_column p) = Ok 1%nat.
Proof.
  intros Ht Hlen; unfold check_reg_targets, as_column.
  rewrite !length_map, Hlen, Nat.eqb_refl; simpl negb; cbv iota.
  destruct t as [| t0 t]; [congruence |].
  destruct p as [| p0 p]; [discriminate |]; reflexivity.
Qed.

Lemma mean_singleton (x : Q) : mean [x] == x.
Proof. unfold mean, tsum, zero; simpl. field. Qed.

(** The two metrics on arrays of one column. *)
Lemma mean_squared_error_column (t p : list Q) :
  t <> [] -> length t = length p ->
  mean_squared_error (as_column t) (as_column p)
  = Ok (mean [mean (zip_with squared_error t p)]).
Proof.
  intros Ht Hlen; unfold mean_squared_error.
  rewrite (check_reg_targets_columns t p Ht Hlen); simpl.
  rewrite !column_as_column; reflexivity.
Qed.

Lemma r2_score_column (t p : list Q) :
  t <> [] -> length t = length p ->
  r2_score (as_column t) (as_column p)
  = if (length p <? 2)%nat then Ok NaN
    else Ok (Finite (mean [r2_output t p])).
Proof.
  intros Ht Hlen; unfold r2_score.
  rewrite (check_reg_targets_columns t p Ht Hlen); simpl bind.
  unfold as_column at 1; rewrite length_map.
  destruct (length p <? 2)%nat; [reflexivity |]; simpl.
  rewrite !column_as_column; reflexivity.
Qed.

(** Sums under a change of scale. *)
Lemma tsum_map_Qeq {A : Type} (f h : A -> Q) (l : list A) :
  (forall x, f x == h x) -> tsum (map f l) == tsum (map h l).
Proof.
  intros H; induction l as [| x l IH]; simpl; [reflexivity |].
  rewrite !tsum_cons, H, IH; reflexivity.
Qed.

Lemma tsum_map_scale {A : Type} (c : Q) (f : A -> Q) (l : list A) :
  tsum (map (fun x => c * f x) l) == c * tsum (map f l).
Proof.
  induction l as [| x l IH]; simpl.
  - unfold tsum, zero; simpl; ring.
  - rewrite !tsum_cons, IH; ring.
Qed.

Lemma of_nat_S (n : nat) : of_nat (F := Q) (S n) == of_nat (F := Q) n + 1.
Proof.
  change (inject_Z (Z.of_nat (S n)) == inject_Z (Z.of_nat n) + 1).
  rewrite Nat2Z.inj_succ, <- Z.add_1_r, inject_Z_plus; reflexivity.
Qed.

Lemma tsum_map_affine (k c : Q) (l : list Q) :
  tsum (map (fun v => k * v + c) l) == k * tsum l + of_nat (length l) * c.
Proof.
  induction l as [| x l IH].
  - unfold tsum, zero, of_nat; simpl; ring.
  - change (length (x :: l)) with (S (length l)).
    simpl map; rewrite !tsum_cons, IH, of_nat_S; ring.
Qed.

Lemma zip_with_maps {A B C : Type} (op : B -> B -> C) (f : A -> B)
  (a b : list A) :
  zip_with op (map f a) (map f b)
  = map (fun p => op (f (fst p)) (f (snd p))) (combine a b).
Proof.
  unfold zip_with; revert b; induction a as [| x a IH]; intros [| y b]; simpl;
    try reflexivity.
  f_equal; apply IH.
Qed.

Lemma Qeq_bool_Qeq (x y : Q) : x == y -> Qeq_bool x 0 = Qeq_bool y 0.
Proof.
  intros H; destruct (Qeq_bool y 0) eqn:E.
  - apply Qeq_bool_iff; apply Qeq_bool_iff in E; rewrite H; exact E.
  - destruct (Qeq_bool x 0) eqn:E'; [| reflexivity].
    apply Qeq_bool_iff in E'; rewrite H in E'.
    apply Qeq_bool_iff in E'; congruence.
Qed.

Section Rescaling.

(** A map that is, entry by entry, an increasing affine map
    [v |-> k * v + c], as the inverse transform of one column is. *)
Variables k c : Q.
Variable rescale : Q -> Q.
Hypothesis k_pos : 0 < k.
Hypothesis rescale_spec : forall v, rescale v == k * v + c.

Lemma squared_error_rescale (t p : list Q) :
  tsum (zip_with squared_error (map rescale t) (map rescale p))
  == k * k * tsum (zip_with squared_error t p).
Proof.
  rewrite zip_with_maps; unfold zip_with.
  rewrite <- tsum_map_scale; apply tsum_map_Qeq; intros [x y].
  unfold squared_error, square; simpl; rewrite !rescale_spec; ring.
Qed.

Lemma mean_squared_error_rescale (t p : list Q) :
  mean (zip_with squared_error (map rescale t) (map rescale p))
  == k * k * mean (zip_with squared_error t p).
Proof.
  unfold mean; simpl fdiv; rewrite squared_error_rescale.
  rewrite !length_zip_with, !length_map; unfold Qdiv; ring.
Qed.

Lemma mean_rescale (t : list Q) :
  t <> [] -> mean (map rescale t) == k * mean t + c.
Proof.
  intros Ht; unfold mean at 1; simpl fdiv; rewrite length_map.
  rewrite (tsum_map_Qeq rescale (fun v => k * v + c) t rescale_spec).
  rewrite tsum_map_affine, (tsum_of_mean t Ht).
  assert (H : 0 < of_nat (F := Q) (length t))
    by (apply of_nat_pos; destruct t; [congruence | simpl; lia]).
  change (of_nat (F := Q) (length t)) with (inject_Z (Z.of_nat (length t))) in *.
  generalize dependent (inject_Z (Z.of_nat (length t))); intros n Hn.
  generalize (mean t); intros m.
  field; lra.
Qed.

Lemma total_squares_rescale (t : list Q) :
  t <> [] ->
  tsum (map (fun a => square (a - mean (map rescale t))) (map rescale t))
  == k * k * tsum (map (fun a => square (a - mean t)) t).
Proof.
  intros Ht; rewrite map_map, <- tsum_map_scale.
  apply tsum_map_Qeq; intros x.
  pose proof (mean_rescale t Ht) as HM.
  revert HM; generalize (mean (map rescale t)), (mean t); intros M' M HM.
  unfold square; simpl; rewrite HM, rescale_spec; ring.
Qed.

(** The score of one output column does not change under the map. *)
Lemma r2_output_rescale (t p : list Q) :
  t <> [] -> r2_output (map rescale t) (map rescale p) == r2_output t p.
Proof.
  intros Ht; unfold r2_output.
  pose proof (squared_error_rescale t p) as Hnum.
  pose proof (total_squares_rescale t Ht) as Hden.
  set (num' := tsum (zip_with squared_error (map rescale t) (map rescale p))) in *.
  set (den' := tsum (map (fun a => square (a - mean (map rescale t)))
                       (map rescale t))) in *.
  set (num := tsum (zip_with squared_error t p)) in *.
  set (den := tsum (map (fun a => square (a - mean t)) t)) in *.
  assert (Hk : 0 < k * k) by nra.
  assert (Bn : Qeq_bool num' 0 = Qeq_bool num 0).
  { destruct (Qeq_bool num 0) eqn:E.
    - apply Qeq_bool_iff in E; apply Qeq_bool_iff; rewrite Hnum, E; ring.
    - destruct (Qeq_bool num' 0) eqn:E'; [| reflexivity].
      apply Qeq_bool_iff in E'; rewrite Hnum in E'.
      assert (num == 0) by (destruct (Qmult_integral _ _ E'); [lra | assumption]).
      apply Qeq_bool_iff in H; congruence. }
  assert (Bd : Qeq_bool den' 0 = Qeq_bool den 0).
  { destruct (Qeq_bool den 0) eqn:E.
    - apply Qeq_bool_iff in E; apply Qeq_bool_iff; rewrite Hden, E; ring.
    - destruct (Qeq_bool den' 0) eqn:E'; [| reflexivity].
      apply Qeq_bool_iff in E'; rewrite Hden in E'.
      assert (den == 0) by (destruct (Qmult_integral _ _ E'); [lra | assumption]).
      apply Qeq_bool_iff in H; congruence. }
  rewrite Bn, Bd.
  destruct (Qeq_bool num 0); [reflexivity |].
  destruct (Qeq_bool den 0) eqn:Ed; [reflexivity |].
  rewrite Hnum, Hden.
  assert (~ den == 0) by (intros H; apply Qeq_bool_iff in H; congruence).
  field; split; [assumption | lra].
Qed.

End Rescaling.

End MetricFacts.

(** ** The evaluation *)

Section Evaluation.

Open Scope Q_scope.

Lemma singleton_of_length {A : Type} (l : list A) (d : A) :
  length l = 1%nat -> l = [nth 0 l d].
Proof. destruct l as [| x [| y l]]; simpl; try discriminate; reflexivity. Qed.

Lemma inverse_transform_as_column (Y : list (list Q)) (s : MinMaxScaler)
  (y : list Q) :
  fit Y = Ok s -> n_features Y = 1%nat -> y <> [] ->
  inverse_transform s (as_column y) = Ok (as_column (map (inverse_entry s) y)).
Proof.
  intros Hfit HY Hy.
  destruct (fit_entries Y s Hfit) as [Hnf [Hls [Hlm _]]].
  rewrite HY in Hnf, Hls, Hlm.
  unfold inverse_transform; rewrite (check_array_as_column y Hy); simpl bind.
  rewrite Hnf.
  assert (Hc : has_columns 1 (as_column y) = true)
    by (unfold as_column; apply forallb_forall; intros r Hr;
        apply in_map_iff in Hr; destruct Hr as [v [<- _]]; reflexivity).
  rewrite Hc; f_equal; unfold as_column; rewrite !map_map.
  apply map_ext; intros v; unfold inverse_transform_row, inverse_entry.
  rewrite (singleton_of_length (min_ s) 0 Hlm) at 1.
  rewrite (singleton_of_length (scale_ s) 0 Hls) at 1.
  reflexivity.
Qed.

(** Away from the shapes of the script the two directions differ: a
    scaler fitted on one column maps back an array of two columns, entry
    by entry, where [transform] raises; a scaler fitted on two columns
    takes an array of three columns in neither direction. *)
Lemma inverse_transform_broadcasts :
  (exists s,
     fit [[1]; [3]] = Ok s /\
     result_map (map (map Qred)) (inverse_transform s [[0; 1 # 2]; [1; 0]])
     = Ok [[1; 2]; [3; 1]] /\
     transform s [[0; 1 # 2]; [1; 0]] = Raise ValueError) /\
  (exists s,
     fit [[1; 2]; [3; 5]] = Ok s /\
     inverse_transform s [[0; 1; 1]] = Raise ValueError /\
     transform s [[0; 1; 1]] = Raise ValueError).
Proof.
  split; eexists; (split; [vm_compute; reflexivity |]);
    split; vm_compute; reflexivity.
Qed.

(** The inverse transform of a one-column scaler multiplies by the
    fitted range and adds the fitted minimum. *)
Lemma inverse_entry_affine (Y : list (list Q)) (s : MinMaxScaler) (v : Q) :
  fit Y = Ok s -> n_features Y = 1%nat ->
  inverse_entry s v
  == handle_zero (column_max (column 0 Y) - column_min (column 0 Y)) * v
     + column_min (column 0 Y).
Proof.
  intros Hfit HY; destruct (fit_entries Y s Hfit) as [_ [_ [_ Hj]]].
  destruct (Hj O ltac:(lia)) as [_ [_ [Esc Emn]]].
  unfold inverse_entry; rewrite Emn, Esc.
  pose proof (handle_zero_pos (column_max (column 0 Y) - column_min (column 0 Y))).
  field; lra.
Qed.

(** What the evaluation returns, written out. *)
Lemma evaluate_returns (sigmoid sqrt : Q -> Q) (m : @PINN Q)
  (Y : list (list Q)) (scaler_y : MinMaxScaler)
  (X_tr : list (list Q)) (y_tr : list Q) (X_v : list (list Q)) (y_v : list Q) :
  fit Y = Ok scaler_y -> n_features Y = 1%nat ->
  pinn_shape m = true ->
  has_columns 9 X_tr = true -> X_tr <> [] -> y_tr <> [] ->
  has_columns 9 X_v = true -> X_v <> [] -> length y_v = length X_v ->
  exists pred,
    forward sigmoid m X_v = Ok pred /\
    length pred = length X_v /\
    let actual := map (inverse_entry scaler_y) y_v in
    let pred_actual := map (inverse_entry scaler_y) pred in
    let v := mean [mean (zip_with squared_error actual pred_actual)] in
    evaluate sigmoid sqrt m scaler_y X_tr y_tr X_v y_v
    = Ok {| mse := v;
            rmse := sqrt v;
            r2 := if (length X_v <? 2)%nat then NaN
                  else Finite (mean [r2_output actual pred_actual]) |}.
Proof.
  intros Hfit HY Hm C1 N1 Ny1 C2 N2 L2.
  destruct (forward_total sigmoid m X_tr Hm C1) as [ptr [Etr Ltr]].
  destruct (forward_total sigmoid m X_v Hm C2) as [pred [Ev Lv]].
  assert (Hne : forall (A B : Type) (l : list A) (l' : list B),
             l' <> [] -> length l = length l' -> l <> [])
    by (intros A B l l' H E ->; destruct l'; [congruence | discriminate]).
  assert (Nptr : ptr <> []) by (apply (Hne _ _ _ X_tr); assumption).
  assert (Npred : pred <> []) by (apply (Hne _ _ _ X_v); assumption).
  assert (Nyv : y_v <> []) by (apply (Hne _ _ _ X_v); assumption).
  exists pred; split; [exact Ev | split; [exact Lv |]]; cbv zeta.
  unfold evaluate; rewrite Etr, Ev; simpl bind.
  rewrite !(inverse_transform_as_column Y scaler_y) by assumption; simpl bind.
  rewrite mean_squared_error_column, r2_score_column;
    try (rewrite !length_map; congruence);
    try (intros E; apply map_eq_nil in E; contradiction).
  rewrite length_map, Lv.
  destruct (length X_v <? 2)%nat; reflexivity.
Qed.

(** X18.  The mean squared error the evaluation reports, taken in the
    units of the target, is the mean squared error of the normalized
    predictions against the normalized targets times the square of the
    fitted range of the target (of 1 for a constant target); the root it
    reports is the root of that number. *)
Theorem reported_mse_scales_with_range (sigmoid sqrt : Q -> Q) (m : @PINN Q)
  (Y : list (list Q)) (scaler_y : MinMaxScaler)
  (X_tr : list (list Q)) (y_tr : list Q) (X_v : list (list Q)) (y_v : list Q) :
  fit Y = Ok scaler_y -> n_features Y = 1%nat ->
  pinn_shape m = true ->
  has_columns 9 X_tr = true -> X_tr <> [] -> y_tr <> [] ->
  has_columns 9 X_v = true -> X_v <> [] -> length y_v = length X_v ->
  let range := handle_zero (column_max (column 0 Y) - column_min (column 0 Y)) in
  exists pred out,
    forward sigmoid m X_v = Ok pred /\
    evaluate sigmoid sqrt m scaler_y X_tr y_tr X_v y_v = Ok out /\
    mse out == range * range * mean (zip_with squared_error y_v pred) /\
    rmse out = sqrt (mse out).
Proof.
  intros Hfit HY Hm C1 N1 Ny1 C2 N2 L2 range.
  destruct (evaluate_returns sigmoid sqrt m Y scaler_y X_tr y_tr X_v y_v
              Hfit HY Hm C1 N1 Ny1 C2 N2 L2) as [pred [Ev [_ E]]].
  cbv zeta in E; exists pred; eexists.
  split; [exact Ev | split; [exact E |]]; cbn [mse rmse].
  split; [| reflexivity].
  rewrite mean_singleton.
  apply (mean_squared_error_rescale range (column_min (column 0 Y))).
  intros v; apply inverse_entry_affine; assumption.
Qed.

(** X19.  The coefficient of determination the evaluation reports is
    the one of the normalized predictions against the normalized targets:
    bringing both back to the units of the target does not change it. *)
Theorem reported_r2_is_scale_free (sigmoid sqrt : Q -> Q) (m : @PINN Q)
  (Y : list (list Q)) (scaler_y : MinMaxScaler)
  (X_tr : list (list Q)) (y_tr : list Q) (X_v : list (list Q)) (y_v : list Q) :
  fit Y = Ok scaler_y -> n_features Y = 1%nat ->
  pinn_shape m = true ->
  has_columns 9 X_tr = true -> X_tr <> [] -> y_tr <> [] ->
  has_columns 9 X_v = true -> length y_v = length X_v ->
  (2 <= length X_v)%nat ->
  exists pred out q,
    forward sigmoid m X_v = Ok pred /\
    evaluate sigmoid sqrt m scaler_y X_tr y_tr X_v y_v = Ok out /\
    r2 out = Finite q /\
    q == r2_output y_v pred.
Proof.
  intros Hfit HY Hm C1 N1 Ny1 C2 L2 Hn.
  assert (N2 : X_v <> []) by (intros E; rewrite E in Hn; simpl in Hn; lia).
  destruct (evaluate_returns sigmoid sqrt m Y scaler_y X_tr y_tr X_v y_v
              Hfit HY Hm C1 N1 Ny1 C2 N2 L2) as [pred [Ev [_ E]]].
  cbv zeta in E.
  destruct (Nat.ltb_spec (length X_v) 2) as [Hlt | _]; [lia |].
  exists pred; do 2 eexists.
  split; [exact Ev | split; [exact E | split; [reflexivity |]]].
  rewrite mean_singleton.
  apply (r2_output_rescale
           (handle_zero (column_max (column 0 Y) - column_min (column 0 Y)))
           (column_min (column 0 Y))).
  - apply handle_zero_pos.
  - intros v; apply inverse_entry_affine; assumption.
  - intros E'; rewrite E' in L2; simpl in L2; lia.
Qed.


End Evaluation.

(** ** The further properties at concrete inputs *)

Section FurtherWitnesses.

Open Scope Q_scope.

Lemma small_table_has_columns (name : string) :
  In name (target :: features) -> In name (columns small_table).
Proof.
  intros H; simpl in H.
  repeat (destruct H as [<- | H]; [simpl; tauto |]); contradiction.
Qed.

Lemma select_missing_column_raises_witness :
  In "Average humidity"%string features /\
  ~ In "Average humidity"%string (columns table_without_humidity) /\
  select table_without_humidity features = Raise KeyError.
Proof.
  assert (H1 : In "Average humidity"%string features) by (simpl; tauto).
  assert (H2 : ~ In "Average humidity"%string (columns table_without_humidity)).
  { simpl; intros H.
    repeat (destruct H as [H | H]; [discriminate H |]); exact H. }
  split; [exact H1 | split; [exact H2 |]].
  exact (select_missing_column_raises table_without_humidity features
           "Average humidity" H1 H2).
Defined.

Lemma select_picks_named_columns_witness :
  exists X,
    select small_table features = Ok X /\
    length X = 5%nat /\
    has_columns 9 X = true.
Proof.
  destruct (select_picks_named_columns small_table features
              (fun name H => small_table_has_columns name (or_intror H)))
    as [X [E [L [C _]]]].
  exists X; auto.
Defined.



Lemma split_keeps_samples_paired_witness :
  let X := [10; 20; 30; 40; 50]%nat in
  let y := [1; 2; 3; 4; 5]%nat in
  (2 <= length X)%nat /\ length y = length X /\
  exists sd g',
    train_test_split counting_RandomState reversing_permutation O X y 0.25
      (Some 42%nat) = Ok (sd, g') /\
    Permutation
      (combine (X_val sd) (y_val sd) ++ combine (X_train sd) (y_train sd))
      (combine X y).
Proof.
  cbv zeta.
  assert (H1 : (2 <= length [10; 20; 30; 40; 50]%nat)%nat) by (simpl; lia).
  split; [exact H1 | split; [reflexivity |]].
  destruct (@split_keeps_samples_paired nat counting_RandomState
              reversing_permutation reversing_permutation_spec nat nat O
              [10; 20; 30; 40; 50]%nat [1; 2; 3; 4; 5]%nat (Some 42%nat)
              H1 eq_refl)
    as [sd [g' [E [_ [_ Hp]]]]].
  exists sd, g'; auto.
Defined.

Lemma split_too_few_samples_raises_witness :
  (length [[1; 2]] < 2)%nat /\
  train_test_split counting_RandomState reversing_permutation O
    [[1; 2]] [[3]] 0.25 (Some 42%nat) = Raise ValueError.
Proof.
  assert (H : (length [[1; 2]] < 2)%nat) by (simpl; lia).
  split; [exact H |].
  exact (split_too_few_samples_raises counting_RandomState
           reversing_permutation O [[1; 2]] [[3]] (Some 42%nat) H).
Defined.

Lemma forward_needs_nine_columns_witness :
  pinn_shape (F := Q) constant_pinn = true /\
  (exists outputs,
     forward rational_sigmoid constant_pinn small_X = Ok outputs /\
     length outputs = 3%nat) /\
  forward rational_sigmoid constant_pinn [[1; 2; 3]] = Raise RuntimeError.
Proof.
  split; [reflexivity |].
  destruct (forward_needs_nine_columns rational_sigmoid constant_pinn small_X
              eq_refl) as [H1 _].
  destruct (forward_needs_nine_columns rational_sigmoid constant_pinn
              [[1; 2; 3]] eq_refl) as [_ H2].
  split; [exact (H1 eq_refl) | exact (H2 eq_refl)].
Defined.

Lemma physics_loss_ignores_unused_channels_witness :
  has_columns 9 small_X = true /\
  physics_loss (map (overwrite_unused 7) small_X) small_y 0.01 0.005 0.002 15
  = physics_loss small_X small_y 0.01 0.005 0.002 15.
Proof.
  split; [reflexivity |].
  exact (physics_loss_ignores_unused_channels small_X small_y
           0.01 0.005 0.002 15 7 eq_refl).
Defined.

Lemma physics_loss_length_mismatch_raises_witness :
  has_columns 9 small_X = true /\
  length [1; 2] <> length small_X /\
  physics_loss small_X [1; 2] 0.01 0.005 0.002 15 = Raise RuntimeError.
Proof.
  assert (H : length [1; 2] <> length small_X) by (simpl; lia).
  split; [reflexivity | split; [exact H |]].
  apply (physics_loss_length_mismatch_raises small_X [1; 2]
           0.01 0.005 0.002 15 eq_refl H); simpl; lia.
Defined.

Lemma physics_loss_broadcasts_single_prediction_witness :
  has_columns 9 small_X = true /\
  exists v, physics_loss small_X [1] 0.01 0.005 0.002 15 = Ok v.
Proof.
  split; [reflexivity |].
  eexists.
  exact (physics_loss_broadcasts_single_prediction small_X 1
           0.01 0.005 0.002 15 eq_refl).
Defined.

Lemma combined_loss_zero_iff_witness :
  pinn_shape (F := Q) constant_pinn = true /\
  has_columns 9 small_X = true /\
  exists predicted total,
    forward rational_sigmoid constant_pinn small_X = Ok predicted /\
    combined_loss rational_sigmoid constant_pinn small_X small_y
      0.01 0.005 0.002 15 = Ok total /\
    (total == 0 -> Forall2 Qeq predicted small_y).
Proof.
  split; [reflexivity | split; [reflexivity |]].
  destruct (combined_loss_zero_iff rational_sigmoid constant_pinn small_X small_y
              0.01 0.005 0.002 15 eq_refl eq_refl eq_refl ltac:(discriminate))
    as [predicted [total [Ef [Ec Hiff]]]].
  exists predicted, total; split; [exact Ef | split; [exact Ec |]].
  intros H; apply Hiff in H; tauto.
Defined.

Lemma pass_visits_every_sample_once_witness :
  Permutation
    (concat (fst (loader_batches counting_base_seed reversing_permutation
                    (small_loader (F := Q) true) O)))
    (seq 0 3).
Proof.
  exact (proj1 (@pass_visits_every_sample_once Q nat counting_base_seed
    reversing_permutation
                  reversing_permutation_spec (small_loader true) O)).
Defined.

Lemma batches_are_nonempty_and_bounded_witness :
  (0 < loader_batch_size (small_loader (F := Q) true))%nat /\
  Forall (fun b => 1 <= length b <= 2)%nat
    (fst (loader_batches counting_base_seed reversing_permutation
            (small_loader (F := Q) true) O)).
Proof.
  assert (H : (0 < loader_batch_size (small_loader (F := Q) true))%nat)
    by (simpl; lia).
  split; [exact H |].
  exact (@batches_are_nonempty_and_bounded Q nat counting_base_seed
    reversing_permutation
           (small_loader true) O H).
Defined.

Lemma empty_validation_set_raises_witness :
  (0 < batch_size (F := Q) small_config)%nat /\
  (0 < epochs (F := Q) small_config)%nat /\
  train rational_sigmoid lower_bias_step counting_base_seed
    reversing_permutation small_config
    constant_pinn O O small_X small_y [] [] = Raise ZeroDivisionError.
Proof.
  assert (H1 : (0 < batch_size (F := Q) small_config)%nat) by (simpl; lia).
  assert (H2 : (0 < epochs (F := Q) small_config)%nat) by (simpl; lia).
  split; [exact H1 | split; [exact H2 |]].
  exact (@empty_validation_set_raises Q Q_scalar rational_sigmoid nat nat
           lower_bias_step counting_base_seed reversing_permutation
           lower_bias_step_shape reversing_permutation_spec
           small_config constant_pinn O O small_X small_y []
           H1 H2 ltac:(discriminate) eq_refl eq_refl eq_refl).
Defined.

Lemma validation_uses_updated_parameters_witness :
  exists st2 st1,
    train_epoch rational_sigmoid lower_bias_step counting_base_seed
      reversing_permutation
      small_config (small_loader true) (small_loader false) small_state
      = Ok st2 /\
    training_phase rational_sigmoid lower_bias_step counting_base_seed
      reversing_permutation
      small_config (small_loader true) small_state = Ok st1 /\
    model st2 = model st1.
Proof.
  destruct (train_epoch rational_sigmoid lower_bias_step counting_base_seed
    reversing_permutation
              small_config (small_loader true) (small_loader false)
              (small_state (F := Q))) as [st2 | e] eqn:E.
  - destruct (@validation_uses_updated_parameters Q Q_scalar rational_sigmoid
                nat nat lower_bias_step counting_base_seed reversing_permutation
                small_config (small_loader true) (small_loader false)
                small_state st2 E)
      as [st1 [ls [E1 [Hm _]]]].
    exists st2, st1; auto.
  - vm_compute in E; discriminate E.
Defined.

Lemma training_run_returns_witness :
  (2 <= length (values small_table))%nat /\
  (0 < batch_size (F := Q) default_config)%nat /\
  exists prep st,
    training_run counting_RandomState reversing_permutation rational_sigmoid
      lower_bias_step counting_base_seed reversing_permutation default_config
        constant_pinn
      O O O small_table = Ok (prep, st) /\
    length (X_train (tensors prep)) = 3%nat /\
    length (X_val (tensors prep)) = 2%nat /\
    length (train_losses st) = 1500%nat.
Proof.
  assert (H1 : (2 <= length (values small_table))%nat) by (simpl; lia).
  assert (H2 : (0 < batch_size (F := Q) default_config)%nat) by (simpl; lia).
  split; [exact H1 | split; [exact H2 |]].
  destruct (@training_run_returns Q Q_scalar nat counting_RandomState
              reversing_permutation rational_sigmoid nat nat lower_bias_step
              counting_base_seed reversing_permutation
                reversing_permutation_spec
              lower_bias_step_shape reversing_permutation_spec
              default_config constant_pinn O O O small_table
              small_table_has_columns H1 H2 eq_refl)
    as [prep [st [E [L1 [L2 [L3 _]]]]]].
  exists prep, st; auto.
Defined.

Lemma reported_mse_scales_with_range_witness :
  let Y := as_column [10; 12; 14] in
  exists scaler_y pred out,
    fit Y = Ok scaler_y /\
    forward rational_sigmoid constant_pinn small_X = Ok pred /\
    evaluate rational_sigmoid (fun v => v) constant_pinn scaler_y
      small_X small_y small_X small_y = Ok out /\
    mse out == 4 * 4 * mean (zip_with squared_error small_y pred).
Proof.
  cbv zeta.
  destruct (fit_returns (as_column [10; 12; 14]) ltac:(discriminate)
              ltac:(simpl; discriminate)) as [scaler_y Hfit].
  destruct (reported_mse_scales_with_range rational_sigmoid (fun v => v)
              constant_pinn (as_column [10; 12; 14]) scaler_y
              small_X small_y small_X small_y
              Hfit eq_refl eq_refl eq_refl ltac:(discriminate)
              ltac:(discriminate) eq_refl ltac:(discriminate) eq_refl)
    as [pred [out [Ef [Ee [Hm _]]]]].
  exists scaler_y, pred, out; repeat split; assumption.
Defined.

Lemma reported_r2_is_scale_free_witness :
  let Y := as_column [10; 12; 14] in
  (2 <= length small_X)%nat /\
  exists scaler_y pred out q,
    fit Y = Ok scaler_y /\
    forward rational_sigmoid constant_pinn small_X = Ok pred /\
    evaluate rational_sigmoid (fun v => v) constant_pinn scaler_y
      small_X small_y small_X small_y = Ok out /\
    r2 out = Finite q /\
    q == r2_output small_y pred.
Proof.
  cbv zeta.
  assert (H : (2 <= length small_X)%nat) by (simpl; lia).
  split; [exact H |].
  destruct (fit_returns (as_column [10; 12; 14]) ltac:(discriminate)
              ltac:(simpl; discriminate)) as [scaler_y Hfit].
  destruct (reported_r2_is_scale_free rational_sigmoid (fun v => v)
              constant_pinn (as_column [10; 12; 14]) scaler_y
              small_X small_y small_X small_y
              Hfit eq_refl eq_refl eq_refl ltac:(discriminate)
              ltac:(discriminate) eq_refl eq_refl H)
    as [pred [out [q [Ef [Ee [Hr Hq]]]]]].
  exists scaler_y, pred, out, q; auto.
Defined.


End FurtherWitnesses.
